(** * RefreshRateCalculator: a shallow embedding and its verified properties

    The estimator of [RefreshRateCalculator.js] is one object whose fields are
    JavaScript Numbers, two arrays of Numbers and a string.  Numbers are IEEE
    754 binary64 values, which is what Rocq's primitive [float] is, so the
    timestamps, thresholds and least-squares sums are embedded as [float] and
    the arithmetic is the code's own, rounding, infinities and NaN included.
    The fields the source marks [int] and only moves by [+1], [-1], [*2+1] or
    by assignment of a count (cycle and sample counters, skip counters,
    [_MAXSTORE], [_LOWESTVALIDHZ]) are embedded as [Z]; binary64 is exact on
    them up to 2^53.  The one counter that takes a value from the caller is
    [_nSkip], through [ignoreNextCycle]: that value is embedded as a safe
    integer ([Count]). *)

From Stdlib Require Import ZArith Bool Ascii String DecimalString List Lia Floats.
Import ListNotations.

Local Open Scope Z_scope.

(** ** JavaScript Number operations that binary64 primitives do not provide *)

Module JS.

Local Open Scope float_scope.

(** [ToBoolean] on a Number: [+0], [-0] and [NaN] are falsy. *)
Definition truthy (x : float) : bool := negb (is_nan x || is_zero x).

(** The Number value of a mathematical integer (exact below 2^53). *)
Definition ofZ (z : Z) : float := SF2Prim (binary_normalize prec emax z 0 false).

(** A finite non-zero Number as [m * 2^e] with [m] a signed integer. *)
Definition scaled (x : float) : option (Z * Z) :=
  match Prim2SF x with
  | S754_finite s m e => Some (if s then Z.neg m else Z.pos m, e)
  | _ => None
  end.

(** [Math.max] of two values: NaN if either is NaN, and [+0] above [-0]. *)
Definition max2 (x y : float) : float :=
  if is_nan x || is_nan y then nan
  else if x <? y then y
  else if y <? x then x
  else if get_sign x then y else x.

(** [Math.min] of two values: NaN if either is NaN, and [-0] below [+0]. *)
Definition min2 (x y : float) : float :=
  if is_nan x || is_nan y then nan
  else if x <? y then x
  else if y <? x then y
  else if get_sign x then x else y.

(** [Math.max] and [Math.min] with four arguments, as [__add] calls them. *)
Definition max4 (a b c d : float) : float := max2 (max2 (max2 a b) c) d.
Definition min4 (a b c d : float) : float := min2 (min2 (min2 a b) c) d.

(** [Math.round]: the nearest integer, ties towards [+infinity]; the sign of
    a zero result is the sign of the argument. *)
Definition round (x : float) : float :=
  match scaled x with
  | None => x
  | Some (m, e) =>
      if (0 <=? e)%Z then x
      else
        let n := ((2 * m + 2 ^ (- e)) / 2 ^ (1 - e))%Z in
        if (n =? 0)%Z then (if x <? 0 then neg_zero else zero) else ofZ n
  end.

(** The [%] operator (Number::remainder): truncating, exact, with the sign
    of the dividend. *)
Definition rem (n d : float) : float :=
  if is_nan n || is_nan d || is_infinity n || is_zero d then nan
  else if is_infinity d || is_zero n then n
  else
    match scaled n, scaled d with
    | Some (mn, en), Some (md, ed) =>
        let e := Z.min en ed in
        let r := Z.rem (mn * 2 ^ (en - e)) (md * 2 ^ (ed - e)) in
        if (r =? 0)%Z then (if n <? 0 then neg_zero else zero)
        else SF2Prim (binary_normalize prec emax r e false)
    | _, _ => nan
    end.

(** Reading an array element in an arithmetic context: a missing element is
    [undefined], which arithmetic turns into NaN. *)
Definition get (arr : list float) (i : nat) : float := nth i arr nan.

(** The assignment [arr[i] = v]: it overwrites inside the array, appends at
    its length, and past the length leaves holes (read back as NaN). *)
Fixpoint set (arr : list float) (i : nat) (v : float) : list float :=
  match arr, i with
  | [], O => [v]
  | [], S i' => nan :: set [] i' v
  | _ :: rest, O => v :: rest
  | x :: rest, S i' => x :: set rest i' v
  end.

End JS.

(** ** The estimator object

    One record for the fields of [this].  The first five are the tunables the
    constructor assigns and nothing changes afterwards; [_nJavaScriptSkip] is
    assigned by the constructor and then only decremented. *)

#[projections(primitive)]
Record RefreshRateCalculator := {
  _VALIDATEMS : float;      (* ms between two runs of the validator *)
  _TIGHTGROUPMS : float;    (* ms: spread of the four deltas of a tight group *)
  _MSCHANGE : float;        (* ms: an interval change above this is a change in Hz *)
  _MAXSTORE : Z;            (* most tight-group frame times stored *)
  _LOWESTVALIDHZ : Z;       (* lowest valid Hz *)
  _nJavaScriptSkip : Z;     (* initial times still to ignore, once at startup *)
  _cycleCount : Z;
  _nSkipBase : Z;
  _nSkip : Z;
  _tUpdate : float;
  _L0 : float; _L1 : float; _L2 : float; _L3 : float; _L4 : float;
  _m_D : list float;        (* raw times *)
  _m_S : list float;        (* smoothed times *)
  _m_ms : float;
  _m_vi : string;
  _m_tvsync : float;
  _m_summs : float;
  _m_nms : Z;
  _m_nChange : Z
}.

(** Assignment to one field, [this._f = v]. *)

Definition set_nJavaScriptSkip (v : Z) (this : RefreshRateCalculator) : RefreshRateCalculator :=
  {| _VALIDATEMS := _VALIDATEMS this; _TIGHTGROUPMS := _TIGHTGROUPMS this;
     _MSCHANGE := _MSCHANGE this; _MAXSTORE := _MAXSTORE this;
     _LOWESTVALIDHZ := _LOWESTVALIDHZ this; _nJavaScriptSkip := v;
     _cycleCount := _cycleCount this; _nSkipBase := _nSkipBase this; _nSkip := _nSkip this;
     _tUpdate := _tUpdate this; _L0 := _L0 this; _L1 := _L1 this; _L2 := _L2 this;
     _L3 := _L3 this; _L4 := _L4 this; _m_D := _m_D this; _m_S := _m_S this;
     _m_ms := _m_ms this; _m_vi := _m_vi this; _m_tvsync := _m_tvsync this;
     _m_summs := _m_summs this; _m_nms := _m_nms this; _m_nChange := _m_nChange this |}.

Definition set_cycleCount (v : Z) (this : RefreshRateCalculator) : RefreshRateCalculator :=
  {| _VALIDATEMS := _VALIDATEMS this; _TIGHTGROUPMS := _TIGHTGROUPMS this;
     _MSCHANGE := _MSCHANGE this; _MAXSTORE := _MAXSTORE this;
     _LOWESTVALIDHZ := _LOWESTVALIDHZ this; _nJavaScriptSkip := _nJavaScriptSkip this;
     _cycleCount := v; _nSkipBase := _nSkipBase this; _nSkip := _nSkip this;
     _tUpdate := _tUpdate this; _L0 := _L0 this; _L1 := _L1 this; _L2 := _L2 this;
     _L3 := _L3 this; _L4 := _L4 this; _m_D := _m_D this; _m_S := _m_S this;
     _m_ms := _m_ms this; _m_vi := _m_vi this; _m_tvsync := _m_tvsync this;
     _m_summs := _m_summs this; _m_nms := _m_nms this; _m_nChange := _m_nChange this |}.

Definition set_nSkipBase (v : Z) (this : RefreshRateCalculator) : RefreshRateCalculator :=
  {| _VALIDATEMS := _VALIDATEMS this; _TIGHTGROUPMS := _TIGHTGROUPMS this;
     _MSCHANGE := _MSCHANGE this; _MAXSTORE := _MAXSTORE this;
     _LOWESTVALIDHZ := _LOWESTVALIDHZ this; _nJavaScriptSkip := _nJavaScriptSkip this;
     _cycleCount := _cycleCount this; _nSkipBase := v; _nSkip := _nSkip this;
     _tUpdate := _tUpdate this; _L0 := _L0 this; _L1 := _L1 this; _L2 := _L2 this;
     _L3 := _L3 this; _L4 := _L4 this; _m_D := _m_D this; _m_S := _m_S this;
     _m_ms := _m_ms this; _m_vi := _m_vi this; _m_tvsync := _m_tvsync this;
     _m_summs := _m_summs this; _m_nms := _m_nms this; _m_nChange := _m_nChange this |}.

Definition set_nSkip (v : Z) (this : RefreshRateCalculator) : RefreshRateCalculator :=
  {| _VALIDATEMS := _VALIDATEMS this; _TIGHTGROUPMS := _TIGHTGROUPMS this;
     _MSCHANGE := _MSCHANGE this; _MAXSTORE := _MAXSTORE this;
     _LOWESTVALIDHZ := _LOWESTVALIDHZ this; _nJavaScriptSkip := _nJavaScriptSkip this;
     _cycleCount := _cycleCount this; _nSkipBase := _nSkipBase this; _nSkip := v;
     _tUpdate := _tUpdate this; _L0 := _L0 this; _L1 := _L1 this; _L2 := _L2 this;
     _L3 := _L3 this; _L4 := _L4 this; _m_D := _m_D this; _m_S := _m_S this;
     _m_ms := _m_ms this; _m_vi := _m_vi this; _m_tvsync := _m_tvsync this;
     _m_summs := _m_summs this; _m_nms := _m_nms this; _m_nChange := _m_nChange this |}.

Definition set_tUpdate (v : float) (this : RefreshRateCalculator) : RefreshRateCalculator :=
  {| _VALIDATEMS := _VALIDATEMS this; _TIGHTGROUPMS := _TIGHTGROUPMS this;
     _MSCHANGE := _MSCHANGE this; _MAXSTORE := _MAXSTORE this;
     _LOWESTVALIDHZ := _LOWESTVALIDHZ this; _nJavaScriptSkip := _nJavaScriptSkip this;
     _cycleCount := _cycleCount this; _nSkipBase := _nSkipBase this; _nSkip := _nSkip this;
     _tUpdate := v; _L0 := _L0 this; _L1 := _L1 this; _L2 := _L2 this; _L3 := _L3 this;
     _L4 := _L4 this; _m_D := _m_D this; _m_S := _m_S this; _m_ms := _m_ms this;
     _m_vi := _m_vi this; _m_tvsync := _m_tvsync this; _m_summs := _m_summs this;
     _m_nms := _m_nms this; _m_nChange := _m_nChange this |}.

Definition set_m_D (v : list float) (this : RefreshRateCalculator) : RefreshRateCalculator :=
  {| _VALIDATEMS := _VALIDATEMS this; _TIGHTGROUPMS := _TIGHTGROUPMS this;
     _MSCHANGE := _MSCHANGE this; _MAXSTORE := _MAXSTORE this;
     _LOWESTVALIDHZ := _LOWESTVALIDHZ this; _nJavaScriptSkip := _nJavaScriptSkip this;
     _cycleCount := _cycleCount this; _nSkipBase := _nSkipBase this; _nSkip := _nSkip this;
     _tUpdate := _tUpdate this; _L0 := _L0 this; _L1 := _L1 this; _L2 := _L2 this;
     _L3 := _L3 this; _L4 := _L4 this; _m_D := v; _m_S := _m_S this; _m_ms := _m_ms this;
     _m_vi := _m_vi this; _m_tvsync := _m_tvsync this; _m_summs := _m_summs this;
     _m_nms := _m_nms this; _m_nChange := _m_nChange this |}.

Definition set_m_S (v : list float) (this : RefreshRateCalculator) : RefreshRateCalculator :=
  {| _VALIDATEMS := _VALIDATEMS this; _TIGHTGROUPMS := _TIGHTGROUPMS this;
     _MSCHANGE := _MSCHANGE this; _MAXSTORE := _MAXSTORE this;
     _LOWESTVALIDHZ := _LOWESTVALIDHZ this; _nJavaScriptSkip := _nJavaScriptSkip this;
     _cycleCount := _cycleCount this; _nSkipBase := _nSkipBase this; _nSkip := _nSkip this;
     _tUpdate := _tUpdate this; _L0 := _L0 this; _L1 := _L1 this; _L2 := _L2 this;
     _L3 := _L3 this; _L4 := _L4 this; _m_D := _m_D this; _m_S := v; _m_ms := _m_ms this;
     _m_vi := _m_vi this; _m_tvsync := _m_tvsync this; _m_summs := _m_summs this;
     _m_nms := _m_nms this; _m_nChange := _m_nChange this |}.

Definition set_m_ms (v : float) (this : RefreshRateCalculator) : RefreshRateCalculator :=
  {| _VALIDATEMS := _VALIDATEMS this; _TIGHTGROUPMS := _TIGHTGROUPMS this;
     _MSCHANGE := _MSCHANGE this; _MAXSTORE := _MAXSTORE this;
     _LOWESTVALIDHZ := _LOWESTVALIDHZ this; _nJavaScriptSkip := _nJavaScriptSkip this;
     _cycleCount := _cycleCount this; _nSkipBase := _nSkipBase this; _nSkip := _nSkip this;
     _tUpdate := _tUpdate this; _L0 := _L0 this; _L1 := _L1 this; _L2 := _L2 this;
     _L3 := _L3 this; _L4 := _L4 this; _m_D := _m_D this; _m_S := _m_S this; _m_ms := v;
     _m_vi := _m_vi this; _m_tvsync := _m_tvsync this; _m_summs := _m_summs this;
     _m_nms := _m_nms this; _m_nChange := _m_nChange this |}.

Definition set_m_vi (v : string) (this : RefreshRateCalculator) : RefreshRateCalculator :=
  {| _VALIDATEMS := _VALIDATEMS this; _TIGHTGROUPMS := _TIGHTGROUPMS this;
     _MSCHANGE := _MSCHANGE this; _MAXSTORE := _MAXSTORE this;
     _LOWESTVALIDHZ := _LOWESTVALIDHZ this; _nJavaScriptSkip := _nJavaScriptSkip this;
     _cycleCount := _cycleCount this; _nSkipBase := _nSkipBase this; _nSkip := _nSkip this;
     _tUpdate := _tUpdate this; _L0 := _L0 this; _L1 := _L1 this; _L2 := _L2 this;
     _L3 := _L3 this; _L4 := _L4 this; _m_D := _m_D this; _m_S := _m_S this;
     _m_ms := _m_ms this; _m_vi := v; _m_tvsync := _m_tvsync this;
     _m_summs := _m_summs this; _m_nms := _m_nms this; _m_nChange := _m_nChange this |}.

Definition set_m_tvsync (v : float) (this : RefreshRateCalculator) : RefreshRateCalculator :=
  {| _VALIDATEMS := _VALIDATEMS this; _TIGHTGROUPMS := _TIGHTGROUPMS this;
     _MSCHANGE := _MSCHANGE this; _MAXSTORE := _MAXSTORE this;
     _LOWESTVALIDHZ := _LOWESTVALIDHZ this; _nJavaScriptSkip := _nJavaScriptSkip this;
     _cycleCount := _cycleCount this; _nSkipBase := _nSkipBase this; _nSkip := _nSkip this;
     _tUpdate := _tUpdate this; _L0 := _L0 this; _L1 := _L1 this; _L2 := _L2 this;
     _L3 := _L3 this; _L4 := _L4 this; _m_D := _m_D this; _m_S := _m_S this;
     _m_ms := _m_ms this; _m_vi := _m_vi this; _m_tvsync := v; _m_summs := _m_summs this;
     _m_nms := _m_nms this; _m_nChange := _m_nChange this |}.

Definition set_m_summs (v : float) (this : RefreshRateCalculator) : RefreshRateCalculator :=
  {| _VALIDATEMS := _VALIDATEMS this; _TIGHTGROUPMS := _TIGHTGROUPMS this;
     _MSCHANGE := _MSCHANGE this; _MAXSTORE := _MAXSTORE this;
     _LOWESTVALIDHZ := _LOWESTVALIDHZ this; _nJavaScriptSkip := _nJavaScriptSkip this;
     _cycleCount := _cycleCount this; _nSkipBase := _nSkipBase this; _nSkip := _nSkip this;
     _tUpdate := _tUpdate this; _L0 := _L0 this; _L1 := _L1 this; _L2 := _L2 this;
     _L3 := _L3 this; _L4 := _L4 this; _m_D := _m_D this; _m_S := _m_S this;
     _m_ms := _m_ms this; _m_vi := _m_vi this; _m_tvsync := _m_tvsync this; _m_summs := v;
     _m_nms := _m_nms this; _m_nChange := _m_nChange this |}.

Definition set_m_nms (v : Z) (this : RefreshRateCalculator) : RefreshRateCalculator :=
  {| _VALIDATEMS := _VALIDATEMS this; _TIGHTGROUPMS := _TIGHTGROUPMS this;
     _MSCHANGE := _MSCHANGE this; _MAXSTORE := _MAXSTORE this;
     _LOWESTVALIDHZ := _LOWESTVALIDHZ this; _nJavaScriptSkip := _nJavaScriptSkip this;
     _cycleCount := _cycleCount this; _nSkipBase := _nSkipBase this; _nSkip := _nSkip this;
     _tUpdate := _tUpdate this; _L0 := _L0 this; _L1 := _L1 this; _L2 := _L2 this;
     _L3 := _L3 this; _L4 := _L4 this; _m_D := _m_D this; _m_S := _m_S this;
     _m_ms := _m_ms this; _m_vi := _m_vi this; _m_tvsync := _m_tvsync this;
     _m_summs := _m_summs this; _m_nms := v; _m_nChange := _m_nChange this |}.

Definition set_m_nChange (v : Z) (this : RefreshRateCalculator) : RefreshRateCalculator :=
  {| _VALIDATEMS := _VALIDATEMS this; _TIGHTGROUPMS := _TIGHTGROUPMS this;
     _MSCHANGE := _MSCHANGE this; _MAXSTORE := _MAXSTORE this;
     _LOWESTVALIDHZ := _LOWESTVALIDHZ this; _nJavaScriptSkip := _nJavaScriptSkip this;
     _cycleCount := _cycleCount this; _nSkipBase := _nSkipBase this; _nSkip := _nSkip this;
     _tUpdate := _tUpdate this; _L0 := _L0 this; _L1 := _L1 this; _L2 := _L2 this;
     _L3 := _L3 this; _L4 := _L4 this; _m_D := _m_D this; _m_S := _m_S this;
     _m_ms := _m_ms this; _m_vi := _m_vi this; _m_tvsync := _m_tvsync this;
     _m_summs := _m_summs this; _m_nms := _m_nms this; _m_nChange := v |}.

(** The object [{tvsync: ..., ms: ...}] that [__snap] returns. *)
Record Snap := { tvsync : float; ms : float }.

(** [for (loop = lo; loop < lo + n; ++loop) body], threading the variables the
    body assigns. *)
Fixpoint for_loop {A : Type} (n : nat) (loop : nat) (body : nat -> A -> A) (a : A) : A :=
  match n with
  | O => a
  | S n' => for_loop n' (S loop) body (body loop a)
  end.

(** [__cut]: keep the even half of an array.  The loop variable advances by
    two, so the loop is written with its own counter; [fuel] bounds the number
    of iterations and [arr.length] is always enough. *)
Fixpoint __cut_loop (fuel : nat) (arr : list float) (loop : nat) (ret : list float)
  : list float :=
  match fuel with
  | O => ret
  | S fuel' =>
      if (loop <? length arr)%nat
      then __cut_loop fuel' arr (loop + 2) (JS.set ret (length ret) (JS.get arr loop))
      else ret
  end.

Definition __cut (arr : list float) : list float :=
  __cut_loop (length arr) arr 0 [].

Section Estimator.

(** [Number.prototype.toFixed] is a built-in of the host; the estimator only
    pastes its result into the diagnostic string [_m_vi]. *)
Variable toFixed : float -> Z -> string.

Local Open Scope float_scope.

(** [__reset]: reset all statistics.  The [reason] argument only feeds a
    commented-out log line. *)
Definition __reset (this : RefreshRateCalculator) : RefreshRateCalculator :=
  {| _VALIDATEMS := _VALIDATEMS this; _TIGHTGROUPMS := _TIGHTGROUPMS this;
     _MSCHANGE := _MSCHANGE this; _MAXSTORE := _MAXSTORE this;
     _LOWESTVALIDHZ := _LOWESTVALIDHZ this; _nJavaScriptSkip := _nJavaScriptSkip this;
     _cycleCount := 0%Z;
     _nSkipBase := 0%Z;
     _nSkip := 0%Z;
     _tUpdate := 0;
     _L0 := 0; _L1 := 0; _L2 := 0; _L3 := 0; _L4 := 0;
     _m_D := [];
     _m_S := [];
     _m_ms := 0;
     _m_vi := ""%string;
     _m_tvsync := 0;
     _m_summs := 0;
     _m_nms := 0%Z;
     _m_nChange := 0%Z |}.

(** The constructor assigns the tunables and calls [__reset]; the other
    fields do not exist before that call and are given as zeros here. *)
Definition constructor : RefreshRateCalculator :=
  __reset
    {| _VALIDATEMS := 100; _TIGHTGROUPMS := 1; _MSCHANGE := 1;
       _MAXSTORE := 5000000%Z; _LOWESTVALIDHZ := 35%Z; _nJavaScriptSkip := 60%Z;
       _cycleCount := 0%Z; _nSkipBase := 0%Z; _nSkip := 0%Z; _tUpdate := 0;
       _L0 := 0; _L1 := 0; _L2 := 0; _L3 := 0; _L4 := 0;
       _m_D := []; _m_S := []; _m_ms := 0; _m_vi := ""%string; _m_tvsync := 0;
       _m_summs := 0; _m_nms := 0%Z; _m_nChange := 0%Z |}.

(** *** [__validate]: the least-squares fit and the drift check *)

(** The sums of the first loop: [sx], [sy], [sxx], [sxy] and the running cycle
    index [X]. *)
Record Sums := { sx : float; sy : float; sxx : float; sxy : float; bigX : float }.

Definition fit_body (this : RefreshRateCalculator) (loop : nat) (a : Sums) : Sums :=
  let X := bigX a +
           (if (0 <? loop)%nat
            then JS.round ((JS.get (_m_S this) loop - JS.get (_m_S this) (loop - 1))
                           / _m_ms this)
            else 0) in
  let Y := JS.get (_m_D this) loop - JS.get (_m_D this) 0 in
  {| sx := sx a + X; sy := sy a + Y; sxx := sxx a + X * X; sxy := sxy a + X * Y;
     bigX := X |}.

(** The body of the second loop, on the pair [(max, min)]. *)
Definition drift_body (this : RefreshRateCalculator) (tb halfms : float)
  (loop : nat) (a : float * float) : float * float :=
  let off := JS.rem (JS.get (_m_D this) loop - tb + halfms) (_m_ms this) - halfms in
  (JS.max2 (fst a) off, JS.min2 (snd a) off).

Definition __validate (this : RefreshRateCalculator) : string * RefreshRateCalculator :=
  let N := length (_m_D this) in
  let a := for_loop N 0 (fit_body this)
             {| sx := 0; sy := 0; sxx := 0; sxy := 0; bigX := 0 |} in
  let Nf := JS.ofZ (Z.of_nat N) in
  let m := (Nf * sxy a - sx a * sy a) / (Nf * sxx a - sx a * sx a) in
  let b := (sxx a * sy a - sx a * sxy a) / (Nf * sxx a - sx a * sx a) in
  let this := set_m_ms m this in
  let tb := JS.get (_m_D this) 0 + b in
  let halfms := _m_ms this / 2 in
  let mm := for_loop (length (_m_D this) - 1) 1 (drift_body this tb halfms) (0, 0) in
  let max := fst mm in
  let min := snd mm in
  if max - min <? halfms
  then (("drift=[" ++ toFixed min 2 ++ ".." ++ toFixed max 2 ++ "]")%string,
        set_m_tvsync (tb + min) this)
  else (""%string, __reset this).

(** *** [__add]: one timestamp through the filter *)

(** Lines 162-167: count the cycle and shift the window. *)
Definition shift (this : RefreshRateCalculator) (tFrame : float) : RefreshRateCalculator :=
  {| _VALIDATEMS := _VALIDATEMS this; _TIGHTGROUPMS := _TIGHTGROUPMS this;
     _MSCHANGE := _MSCHANGE this; _MAXSTORE := _MAXSTORE this;
     _LOWESTVALIDHZ := _LOWESTVALIDHZ this; _nJavaScriptSkip := _nJavaScriptSkip this;
     _cycleCount := (_cycleCount this + 1)%Z;
     _nSkipBase := _nSkipBase this; _nSkip := _nSkip this; _tUpdate := _tUpdate this;
     _L0 := _L1 this; _L1 := _L2 this; _L2 := _L3 this; _L3 := _L4 this; _L4 := tFrame;
     _m_D := _m_D this; _m_S := _m_S this; _m_ms := _m_ms this; _m_vi := _m_vi this;
     _m_tvsync := _m_tvsync this; _m_summs := _m_summs this; _m_nms := _m_nms this;
     _m_nChange := _m_nChange this |}.

(** Line 168: the spread of the four deltas of the window. *)
Definition grouping (this : RefreshRateCalculator) : float :=
  JS.max4 (_L4 this - _L3 this) (_L3 this - _L2 this)
          (_L2 this - _L1 this) (_L1 this - _L0 this)
  - JS.min4 (_L4 this - _L3 this) (_L3 this - _L2 this)
            (_L2 this - _L1 this) (_L1 this - _L0 this).

(** Line 173. *)
Definition avems (this : RefreshRateCalculator) : float :=
  (_L4 this - _L0 this) / 4.

(** Line 180. *)
Definition bHzChanged (this : RefreshRateCalculator) (avems : float) : bool :=
  (10 <? _m_nms this)%Z
  && (_MSCHANGE this <? abs (avems - _m_summs this / JS.ofZ (_m_nms this))).

(** Lines 180-191: the change counter and the running mean. *)
Definition track (this : RefreshRateCalculator) (avems grouping : float)
  : RefreshRateCalculator :=
  let changed := bHzChanged this avems in
  let this := set_m_nChange (if changed then _m_nChange this + 1 else 0)%Z this in
  if negb changed then
    let this := set_m_summs (_m_summs this + avems) this in
    let this := set_m_nms (_m_nms this + 1)%Z this in
    if negb (JS.truthy (_m_ms this))
       && (JS.max2 30 (grouping * 60) <? JS.ofZ (_m_nms this))
    then set_m_ms (_m_summs this / JS.ofZ (_m_nms this)) this
    else this
  else this.

(** Lines 199-208: make room if the store is full, then record the sample. *)
Definition store (this : RefreshRateCalculator) : RefreshRateCalculator :=
  let this :=
    if (_MAXSTORE this <=? Z.of_nat (length (_m_D this)))%Z then
      let this := set_m_D (__cut (_m_D this)) this in
      let this := set_m_S (__cut (_m_S this)) this in
      set_nSkipBase (_nSkipBase this * 2 + 1)%Z this
    else this in
  let at_ := length (_m_D this) in
  let this := set_m_D (JS.set (_m_D this) at_ (_L2 this)) this in
  let this :=
    set_m_S (JS.set (_m_S this) at_
               ((_L0 this + _L1 this + _L2 this + _L3 this + _L4 this) / 5)) this in
  set_nSkip (_nSkipBase this) this.

(** Line 211: is the validator due? *)
Definition due (this : RefreshRateCalculator) (tFrame : float) : bool :=
  JS.truthy (_m_ms this) && (_VALIDATEMS this <? tFrame - _tUpdate this).

(** The ways through [__add], named after what the call does with its
    timestamp.  The tag is a ghost result: it records the branch taken and
    nothing reads it. *)
Inductive Path :=
| Loose        (* the window is not a tight group *)
| Skipped      (* absorbed by the startup skip or by [_nSkip] *)
| Inactive     (* below the lowest valid Hz *)
| HzReset      (* reset: change in Hz detected *)
| Stored       (* sample stored, validator not due *)
| Validated    (* sample stored, validator ran and accepted the fit *)
| DriftReset.  (* sample stored, validator ran and reset: excessive drift *)

(** Lines 211-215: run the validator when it is due. *)
Definition update (this : RefreshRateCalculator) (tFrame : float)
  : Path * RefreshRateCalculator :=
  if due this tFrame then
    let this := set_tUpdate tFrame this in
    let r := __validate this in
    (match fst r with EmptyString => DriftReset | _ => Validated end,
     set_m_vi (fst r) (snd r))
  else (Stored, this).

(** [__add] with the tag of the branch it took.  The diagnostic string that
    the source returns is dropped: [countCycle] ignores it, and it reads
    [window] and [navigator]. *)
Definition __add_path (this : RefreshRateCalculator) (tFrame : float)
  : Path * RefreshRateCalculator :=
  let this := shift this tFrame in
  let grouping := grouping this in
  if grouping <? _TIGHTGROUPMS this then
    let this := set_nJavaScriptSkip (_nJavaScriptSkip this - 1)%Z this in
    if (_nJavaScriptSkip this <? 0)%Z then
      let this := set_nSkip (_nSkip this - 1)%Z this in
      if (_nSkip this <? 0)%Z then
        let avems := avems this in
        if avems <? 1000 / JS.ofZ (_LOWESTVALIDHZ this) then
          let this := track this avems grouping in
          if (20 <? _m_nChange this)%Z then (HzReset, __reset this)
          else update (store this) tFrame
        else (Inactive, this)
      else (Skipped, this)
    else (Skipped, this)
  else (Loose, this).

Definition __add (this : RefreshRateCalculator) (tFrame : float) : RefreshRateCalculator :=
  snd (__add_path this tFrame).

Definition path (this : RefreshRateCalculator) (tFrame : float) : Path :=
  fst (__add_path this tFrame).

Definition __calc (this : RefreshRateCalculator) : float :=
  if JS.truthy (_m_ms this) then 1000 / _m_ms this else 0.

(** A non-empty string is truthy. *)
Definition __snap (this : RefreshRateCalculator) : option Snap :=
  match _m_vi this with
  | EmptyString => None
  | _ => Some {| tvsync := _m_tvsync this; ms := _m_ms this |}
  end.

(** *** The public methods *)

Definition restartMeasuring (this : RefreshRateCalculator) : RefreshRateCalculator :=
  __reset this.

Definition countCycle (this : RefreshRateCalculator) (currentTime : float)
  : RefreshRateCalculator :=
  __add this currentTime.

(** The count that [ignoreNextCycle] is given, a number of cycles: an integer
    below 2^53 in magnitude, which is what JavaScript calls a safe integer.
    On such a count the decrement of line 171 and its test against 0 are in
    binary64 those of the integers ([countdown_exact] and [ofZ_negative]
    below), so the counter it is assigned to can be kept as an integer.  A call
    with any other value (a fraction, a magnitude of 2^53 or more, an
    infinity, NaN, a value that is not a Number) has no counterpart in this
    embedding. *)
Record Count := {
  count_value : Z;
  count_safe : (Z.abs count_value <? 2 ^ 53)%Z = true
}.

(** Line 99 assigns the argument to [_nSkip]; [cycles] defaults to 1 when
    the caller leaves it out. *)
Definition ignoreNextCycle (this : RefreshRateCalculator) (cycles : option Count)
  : RefreshRateCalculator :=
  set_nSkip (match cycles with Some c => count_value c | None => 1%Z end) this.

Definition getCurrentFrequency (this : RefreshRateCalculator) : float := __calc this.

Definition getFilteredCycleTimestamp (this : RefreshRateCalculator) : option Snap :=
  __snap this.

Definition getCount (this : RefreshRateCalculator) : Z := _cycleCount this.

(** ** Calls and runs *)

(** The three mutating methods of the public interface. *)
Inductive Call :=
| CountCycle (currentTime : float)
| IgnoreNextCycle (cycles : option Count)
| RestartMeasuring.

Definition call (this : RefreshRateCalculator) (c : Call) : RefreshRateCalculator :=
  match c with
  | CountCycle t => countCycle this t
  | IgnoreNextCycle n => ignoreNextCycle this n
  | RestartMeasuring => restartMeasuring this
  end.

Definition run (this : RefreshRateCalculator) (cs : list Call) : RefreshRateCalculator :=
  fold_left call cs this.

(** A state is reachable when some sequence of calls leads to it from the
    constructor. *)
Definition reachable (this : RefreshRateCalculator) : Prop :=
  exists cs, this = run constructor cs.

(** The state after the window shift and both skip-gate decrements; it is the
    state [__add] works on once a tight group has passed the gates. *)
Definition gated (this : RefreshRateCalculator) (tFrame : float) : RefreshRateCalculator :=
  let this := shift this tFrame in
  let this := set_nJavaScriptSkip (_nJavaScriptSkip this - 1)%Z this in
  set_nSkip (_nSkip this - 1)%Z this.

(** The low-rate floor [1000 / _LOWESTVALIDHZ]. *)
Definition floor_ms (this : RefreshRateCalculator) : float :=
  1000 / JS.ofZ (_LOWESTVALIDHZ this).

(** The even-indexed elements of a list, by recursion on the list. *)
Fixpoint evens {A : Type} (l : list A) : list A :=
  match l with
  | [] => []
  | x :: rest => x :: match rest with [] => [] | _ :: rest' => evens rest' end
  end.

(** The state after the change tracker (lines 180-191) of a call that passed
    the gates and the floor. *)
Definition tracked (this : RefreshRateCalculator) (tFrame : float) : RefreshRateCalculator :=
  track (gated this tFrame) (avems (shift this tFrame)) (grouping (shift this tFrame)).

(** The state the validator runs on: the new sample is in the store and
    [_tUpdate] is the current timestamp. *)
Definition validating (this : RefreshRateCalculator) (tFrame : float)
  : RefreshRateCalculator :=
  set_tUpdate tFrame (store (tracked this tFrame)).

(** ** The validator as the specification words it *)

(** [f 0 + ... + f (n - 1)], accumulated from 0 in index order. *)
Definition fsum (f : nat -> float) (n : nat) : float :=
  fold_left (fun acc i => acc + f i) (seq 0 n) 0.

(** The cycle index: it starts at 0 and grows at each step by the rounded
    number of intervals between two consecutive smoothed samples. *)
Fixpoint cycle_index (smoothed : list float) (msInterval : float) (i : nat) : float :=
  match i with
  | O => 0
  | S j => cycle_index smoothed msInterval j
           + JS.round ((JS.get smoothed i - JS.get smoothed j) / msInterval)
  end.

Definition fit_N (this : RefreshRateCalculator) : float :=
  JS.ofZ (Z.of_nat (length (_m_D this))).

Definition fit_X (this : RefreshRateCalculator) (i : nat) : float :=
  cycle_index (_m_S this) (_m_ms this) i.

Definition fit_Y (this : RefreshRateCalculator) (i : nat) : float :=
  JS.get (_m_D this) i - JS.get (_m_D this) 0.

Definition fit_sx (this : RefreshRateCalculator) : float :=
  fsum (fit_X this) (length (_m_D this)).

Definition fit_sy (this : RefreshRateCalculator) : float :=
  fsum (fit_Y this) (length (_m_D this)).

Definition fit_sxx (this : RefreshRateCalculator) : float :=
  fsum (fun i => fit_X this i * fit_X this i) (length (_m_D this)).

Definition fit_sxy (this : RefreshRateCalculator) : float :=
  fsum (fun i => fit_X this i * fit_Y this i) (length (_m_D this)).

(** The denominator shared by the two closed-form quotients. *)
Definition fit_denominator (this : RefreshRateCalculator) : float :=
  fit_N this * fit_sxx this - fit_sx this * fit_sx this.

Definition fit_slope (this : RefreshRateCalculator) : float :=
  (fit_N this * fit_sxy this - fit_sx this * fit_sy this) / fit_denominator this.

Definition fit_intercept (this : RefreshRateCalculator) : float :=
  (fit_sxx this * fit_sy this - fit_sx this * fit_sxy this) / fit_denominator this.

Definition fit_timebase (this : RefreshRateCalculator) : float :=
  JS.get (_m_D this) 0 + fit_intercept this.

Definition fit_halfMs (this : RefreshRateCalculator) : float := fit_slope this / 2.

(** The residual of stored sample [i] against the fitted line. *)
Definition fit_offset (this : RefreshRateCalculator) (i : nat) : float :=
  JS.rem (JS.get (_m_D this) i - fit_timebase this + fit_halfMs this) (fit_slope this)
  - fit_halfMs this.

(** The running extremes: both start from 0 and take in the samples from
    index 1 on. *)
Definition fit_min (this : RefreshRateCalculator) : float :=
  fold_left (fun a i => JS.min2 a (fit_offset this i)) (seq 1 (length (_m_D this) - 1)) 0.

Definition fit_max (this : RefreshRateCalculator) : float :=
  fold_left (fun a i => JS.max2 a (fit_offset this i)) (seq 1 (length (_m_D this) - 1)) 0.

(** The drift check. *)
Definition fit_accepted (this : RefreshRateCalculator) : bool :=
  fit_max this - fit_min this <? fit_halfMs this.

(** The diagnostic string of an accepted fit. *)
Definition fit_report (this : RefreshRateCalculator) : string :=
  ("drift=[" ++ toFixed (fit_min this) 2 ++ ".." ++ toFixed (fit_max this) 2 ++ "]")%string.

(** ** [__add] as a relation

    One rule for each way through [__add]: the conditions under which the
    call takes it and the state it leaves. *)

Definition tight (this : RefreshRateCalculator) (tFrame : float) : bool :=
  grouping (shift this tFrame) <? _TIGHTGROUPMS this.

Definition above_floor (this : RefreshRateCalculator) (tFrame : float) : bool :=
  avems (shift this tFrame) <? floor_ms this.

Inductive adds (this : RefreshRateCalculator) (tFrame : float)
  : Path -> RefreshRateCalculator -> Prop :=
| adds_loose :
    tight this tFrame = false ->
    adds this tFrame Loose (shift this tFrame)
| adds_startup :
    tight this tFrame = true ->
    (0 <= _nJavaScriptSkip this - 1)%Z ->
    adds this tFrame Skipped
      (set_nJavaScriptSkip (_nJavaScriptSkip this - 1)%Z (shift this tFrame))
| adds_skipped :
    tight this tFrame = true ->
    (_nJavaScriptSkip this - 1 < 0)%Z ->
    (0 <= _nSkip this - 1)%Z ->
    adds this tFrame Skipped (gated this tFrame)
| adds_inactive :
    tight this tFrame = true ->
    (_nJavaScriptSkip this - 1 < 0)%Z ->
    (_nSkip this - 1 < 0)%Z ->
    above_floor this tFrame = false ->
    adds this tFrame Inactive (gated this tFrame)
| adds_hz_reset :
    tight this tFrame = true ->
    (_nJavaScriptSkip this - 1 < 0)%Z ->
    (_nSkip this - 1 < 0)%Z ->
    above_floor this tFrame = true ->
    (20 < _m_nChange (tracked this tFrame))%Z ->
    adds this tFrame HzReset (__reset (tracked this tFrame))
| adds_stored :
    tight this tFrame = true ->
    (_nJavaScriptSkip this - 1 < 0)%Z ->
    (_nSkip this - 1 < 0)%Z ->
    above_floor this tFrame = true ->
    (_m_nChange (tracked this tFrame) <= 20)%Z ->
    due (store (tracked this tFrame)) tFrame = false ->
    adds this tFrame Stored (store (tracked this tFrame))
| adds_validated :
    tight this tFrame = true ->
    (_nJavaScriptSkip this - 1 < 0)%Z ->
    (_nSkip this - 1 < 0)%Z ->
    above_floor this tFrame = true ->
    (_m_nChange (tracked this tFrame) <= 20)%Z ->
    due (store (tracked this tFrame)) tFrame = true ->
    fit_accepted (validating this tFrame) = true ->
    adds this tFrame Validated
      (set_m_vi (fit_report (validating this tFrame))
         (set_m_tvsync (fit_timebase (validating this tFrame) + fit_min (validating this tFrame))
            (set_m_ms (fit_slope (validating this tFrame)) (validating this tFrame))))
| adds_drift_reset :
    tight this tFrame = true ->
    (_nJavaScriptSkip this - 1 < 0)%Z ->
    (_nSkip this - 1 < 0)%Z ->
    above_floor this tFrame = true ->
    (_m_nChange (tracked this tFrame) <= 20)%Z ->
    due (store (tracked this tFrame)) tFrame = true ->
    fit_accepted (validating this tFrame) = false ->
    adds this tFrame DriftReset
      (__reset (set_m_ms (fit_slope (validating this tFrame)) (validating this tFrame))).

(** ** Observations over a run of [countCycle] calls *)

Definition cycles (this : RefreshRateCalculator) (ts : list float) : RefreshRateCalculator :=
  fold_left __add ts this.

(** Does this call end in a reset of the statistics? *)
Definition resets (this : RefreshRateCalculator) (c : Call) : bool :=
  match c with
  | CountCycle t =>
      match path this t with HzReset | DriftReset => true | _ => false end
  | IgnoreNextCycle _ => false
  | RestartMeasuring => true
  end.

(** The number of [countCycle] calls since the most recent reset, given the
    number [n] before the run. *)
Fixpoint since_reset (this : RefreshRateCalculator) (cs : list Call) (n : Z) : Z :=
  match cs with
  | [] => n
  | c :: cs' =>
      since_reset (call this c) cs'
        (if resets this c then 0
         else match c with CountCycle _ => n + 1 | _ => n end)%Z
  end.


(** The number of calls of a run that find a tight group. *)
Fixpoint tight_calls (this : RefreshRateCalculator) (ts : list float) : Z :=
  match ts with
  | [] => 0
  | t :: ts' => ((if tight this t then 1 else 0) + tight_calls (__add this t) ts')%Z
  end.

(** Every call of the run sees a window whose mean delta is at or above the
    low-rate floor. *)
Fixpoint always_slow (this : RefreshRateCalculator) (ts : list float) : Prop :=
  match ts with
  | [] => True
  | t :: ts' =>
      (floor_ms this <=? avems (shift this t)) = true /\ always_slow (__add this t) ts'
  end.

(** The invariant of the sample store, and what a reset leaves behind. *)
Definition store_bounded (this : RefreshRateCalculator) : Prop :=
  length (_m_D this) = length (_m_S this)
  /\ (Z.of_nat (length (_m_D this)) <= _MAXSTORE this)%Z.

(** [s'] has the window of [s] shifted by one timestamp and one more cycle
    counted. *)
Definition window_shifted (s : RefreshRateCalculator) (tFrame : float)
  (s' : RefreshRateCalculator) : Prop :=
  _L0 s' = _L1 s /\ _L1 s' = _L2 s /\ _L2 s' = _L3 s /\ _L3 s' = _L4 s /\ _L4 s' = tFrame
  /\ _cycleCount s' = (_cycleCount s + 1)%Z.

(** [s'] has the store, the estimate and the running statistics of [s]. *)
Definition same_statistics (s s' : RefreshRateCalculator) : Prop :=
  _m_D s' = _m_D s /\ _m_S s' = _m_S s /\ _m_ms s' = _m_ms s /\ _m_vi s' = _m_vi s
  /\ _m_tvsync s' = _m_tvsync s /\ _m_summs s' = _m_summs s /\ _m_nms s' = _m_nms s
  /\ _m_nChange s' = _m_nChange s /\ _nSkipBase s' = _nSkipBase s
  /\ _tUpdate s' = _tUpdate s.

(** What a full reset leaves behind: no cycle counted, a window of zeros, an
    empty store, no estimate and no diagnostic string, and the running mean,
    the change counter, the stride and the skip counter at zero. *)
Definition cleared (s : RefreshRateCalculator) : Prop :=
  _cycleCount s = 0%Z /\ _nSkipBase s = 0%Z /\ _nSkip s = 0%Z /\ _tUpdate s = 0
  /\ _L0 s = 0 /\ _L1 s = 0 /\ _L2 s = 0 /\ _L3 s = 0 /\ _L4 s = 0
  /\ _m_D s = [] /\ _m_S s = []
  /\ _m_ms s = 0 /\ _m_vi s = EmptyString /\ _m_tvsync s = 0
  /\ _m_summs s = 0 /\ _m_nms s = 0%Z /\ _m_nChange s = 0%Z.

(** [s'] has the tunables of [s]. *)
Definition same_tunables (s s' : RefreshRateCalculator) : Prop :=
  _VALIDATEMS s' = _VALIDATEMS s /\ _TIGHTGROUPMS s' = _TIGHTGROUPMS s
  /\ _MSCHANGE s' = _MSCHANGE s /\ _MAXSTORE s' = _MAXSTORE s
  /\ _LOWESTVALIDHZ s' = _LOWESTVALIDHZ s.

(** What holds of every reachable state: the two sequences of the store have
    one length, within the capacity; the tunables are those the constructor
    assigned; the cycle counter is a count; the stride is of the series
    [2^n - 1]. *)
Definition invariant (this : RefreshRateCalculator) : Prop :=
  store_bounded this
  /\ same_tunables constructor this
  /\ (0 <= _cycleCount this)%Z
  /\ exists n : nat, _nSkipBase this = (2 ^ Z.of_nat n - 1)%Z.

(** ** Classes of binary64 values

    A value is void when it is NaN, unbounded when it is an infinity, null when
    it is a zero of either sign, and hollow when it is null or void. *)
Definition is_void (x : float) : Prop := Prim2SF x = S754_nan.

Definition is_unbounded (x : float) : Prop := exists s, Prim2SF x = S754_infinity s.

Definition is_null (x : float) : Prop := exists s, Prim2SF x = S754_zero s.

Definition is_hollow (x : float) : Prop := is_null x \/ is_void x.

(** Reading a field through the assignments above it. *)
Ltac fields :=
  cbn [fst snd
       _VALIDATEMS _TIGHTGROUPMS _MSCHANGE _MAXSTORE _LOWESTVALIDHZ _nJavaScriptSkip
       _cycleCount _nSkipBase _nSkip _tUpdate _L0 _L1 _L2 _L3 _L4 _m_D _m_S _m_ms
       _m_vi _m_tvsync _m_summs _m_nms _m_nChange
       set_nJavaScriptSkip set_cycleCount set_nSkipBase set_nSkip set_tUpdate set_m_D
       set_m_S set_m_ms set_m_vi set_m_tvsync set_m_summs set_m_nms set_m_nChange
       __reset shift gated validating] in *.

(** ** Facts about binary64 comparisons *)

Lemma SFcompare_swap (a b : spec_float) (c : comparison) :
  SFcompare a b = Some c -> SFcompare b a = Some (CompOpp c).
Proof.
  destruct a as [sa|sa| |sa ma ea], b as [sb|sb| |sb mb eb]; simpl;
    try discriminate;
    try (destruct sa); try (destruct sb); simpl;
    try (intros H; injection H as <-; reflexivity).
  all: assert (Hm : Pos.compare_cont Eq mb ma = CompOpp (Pos.compare_cont Eq ma mb))
         by (rewrite Pos.compare_cont_antisym; reflexivity).
  all: rewrite (Z.compare_antisym ea eb), Hm;
    destruct (ea ?= eb)%Z; simpl;
    intros H; injection H as <-; try reflexivity.
  all: try (destruct (Pos.compare_cont Eq ma mb); reflexivity).
Qed.

(** [x >= y] excludes [x < y]. *)
Lemma ltb_false_of_leb (x y : float) : (y <=? x) = true -> (x <? y) = false.
Proof.
  rewrite leb_spec, ltb_spec. unfold SFleb, SFltb.
  destruct (SFcompare (Prim2SF y) (Prim2SF x)) as [c|] eqn:E; [|discriminate].
  rewrite (SFcompare_swap _ _ _ E). destruct c; simpl; congruence.
Qed.

Lemma Prim2SF_nan (x : float) : is_nan x = true -> Prim2SF x = S754_nan.
Proof. intros H. unfold Prim2SF. rewrite H. reflexivity. Qed.

(** Nothing is below NaN. *)
Lemma ltb_nan_r (x y : float) : is_nan y = true -> (x <? y) = false.
Proof.
  intros H. rewrite ltb_spec, (Prim2SF_nan y H). unfold SFltb.
  destruct (Prim2SF x); reflexivity.
Qed.

(** ** Arrays *)

Lemma set_at_length (arr : list float) (v : float) :
  JS.set arr (length arr) v = arr ++ [v].
Proof. induction arr as [|x arr IH]; simpl; [reflexivity | now rewrite IH]. Qed.

Lemma evens_skipn_step {A : Type} (l : list A) (k : nat) (d : A) :
  (k < length l)%nat -> evens (skipn k l) = nth k l d :: evens (skipn (k + 2) l).
Proof.
  revert k. induction l as [|x l IH]; intros k Hk; simpl in Hk; [lia|].
  destruct k as [|k].
  - simpl. destruct l; reflexivity.
  - simpl. apply IH. lia.
Qed.

(** The loop of [__cut], from any point on. *)
Lemma __cut_loop_evens (fuel : nat) (arr : list float) (loop : nat) (ret : list float) :
  (length arr <= loop + 2 * fuel)%nat ->
  __cut_loop fuel arr loop ret = ret ++ evens (skipn loop arr).
Proof.
  revert loop ret. induction fuel as [|fuel IH]; intros loop ret Hf; simpl.
  - rewrite skipn_all2 by lia. simpl. now rewrite app_nil_r.
  - destruct (Nat.ltb_spec loop (length arr)) as [Hlt|Hge].
    + rewrite set_at_length, IH by lia.
      rewrite (evens_skipn_step arr loop nan Hlt), <- app_assoc. reflexivity.
    + rewrite skipn_all2 by lia. simpl. now rewrite app_nil_r.
Qed.

Lemma __cut_evens (arr : list float) : __cut arr = evens arr.
Proof. unfold __cut. rewrite __cut_loop_evens by lia. reflexivity. Qed.

Lemma evens_nth_error {A : Type} (l : list A) (i : nat) :
  nth_error (evens l) i = nth_error l (2 * i).
Proof.
  revert l. induction i as [|i IH]; intros l.
  - destruct l; reflexivity.
  - destruct l as [|x [|y l]]; try reflexivity.
    + simpl. destruct i; reflexivity.
    + replace (2 * S i)%nat with (S (S (2 * i))) by lia. simpl. apply IH.
Qed.

Lemma evens_length {A : Type} (l : list A) :
  length (evens l) = Nat.div2 (S (length l)).
Proof.
  assert (H : forall n (l : list A), (length l <= n)%nat ->
            length (evens l) = Nat.div2 (S (length l))).
  { induction n as [|n IH]; intros [|x [|y k]] Hk; simpl in *; try reflexivity; try lia.
    f_equal. destruct n; [lia|].
    rewrite IH by lia. reflexivity. }
  apply (H (length l)). lia.
Qed.

(** ** The branches of [__add] *)

Lemma __add_path_loose (this : RefreshRateCalculator) (tFrame : float) :
  (grouping (shift this tFrame) <? _TIGHTGROUPMS this) = false ->
  __add_path this tFrame = (Loose, shift this tFrame).
Proof.
  intros H. unfold __add_path. cbv zeta.
  change (_TIGHTGROUPMS (shift this tFrame)) with (_TIGHTGROUPMS this).
  rewrite H. reflexivity.
Qed.

Lemma __add_path_startup (this : RefreshRateCalculator) (tFrame : float) :
  (grouping (shift this tFrame) <? _TIGHTGROUPMS this) = true ->
  (0 <= _nJavaScriptSkip this - 1)%Z ->
  __add_path this tFrame
  = (Skipped, set_nJavaScriptSkip (_nJavaScriptSkip this - 1)%Z (shift this tFrame)).
Proof.
  intros H Hjs. unfold __add_path. cbv zeta.
  change (_TIGHTGROUPMS (shift this tFrame)) with (_TIGHTGROUPMS this).
  rewrite H. cbn [_nJavaScriptSkip set_nJavaScriptSkip shift].
  destruct (Z.ltb_spec (_nJavaScriptSkip this - 1) 0); [lia | reflexivity].
Qed.

Lemma __add_path_skipped (this : RefreshRateCalculator) (tFrame : float) :
  (grouping (shift this tFrame) <? _TIGHTGROUPMS this) = true ->
  (_nJavaScriptSkip this - 1 < 0)%Z ->
  (0 <= _nSkip this - 1)%Z ->
  __add_path this tFrame = (Skipped, gated this tFrame).
Proof.
  intros H Hjs Hsk. unfold __add_path. cbv zeta.
  change (_TIGHTGROUPMS (shift this tFrame)) with (_TIGHTGROUPMS this).
  rewrite H. cbn [_nJavaScriptSkip set_nJavaScriptSkip shift].
  destruct (Z.ltb_spec (_nJavaScriptSkip this - 1) 0); [|lia].
  cbn [_nSkip set_nSkip set_nJavaScriptSkip shift].
  destruct (Z.ltb_spec (_nSkip this - 1) 0); [lia | reflexivity].
Qed.

Lemma __add_path_gated (this : RefreshRateCalculator) (tFrame : float) :
  (grouping (shift this tFrame) <? _TIGHTGROUPMS this) = true ->
  (_nJavaScriptSkip this - 1 < 0)%Z ->
  (_nSkip this - 1 < 0)%Z ->
  __add_path this tFrame
  = if avems (shift this tFrame) <? floor_ms this then
      let u := track (gated this tFrame) (avems (shift this tFrame))
                 (grouping (shift this tFrame)) in
      if (20 <? _m_nChange u)%Z then (HzReset, __reset u)
      else update (store u) tFrame
    else (Inactive, gated this tFrame).
Proof.
  intros H Hjs Hsk. unfold __add_path. cbv zeta.
  change (_TIGHTGROUPMS (shift this tFrame)) with (_TIGHTGROUPMS this).
  rewrite H. cbn [_nJavaScriptSkip set_nJavaScriptSkip shift].
  destruct (Z.ltb_spec (_nJavaScriptSkip this - 1) 0); [|lia].
  cbn [_nSkip set_nSkip set_nJavaScriptSkip shift].
  destruct (Z.ltb_spec (_nSkip this - 1) 0); [|lia].
  reflexivity.
Qed.

(** ** The validator computes the fit the specification words *)

Lemma for_loop_snoc {A : Type} (n lo : nat) (body : nat -> A -> A) (a : A) :
  for_loop (S n) lo body a = body (lo + n)%nat (for_loop n lo body a).
Proof.
  revert lo a. induction n as [|n IH]; intros lo a.
  - simpl. now rewrite Nat.add_0_r.
  - change (for_loop (S (S n)) lo body a) with (for_loop (S n) (S lo) body (body lo a)).
    rewrite IH. simpl. now rewrite Nat.add_succ_r.
Qed.

Lemma for_loop_fold {A : Type} (n lo : nat) (body : nat -> A -> A) (a : A) :
  for_loop n lo body a = fold_left (fun acc i => body i acc) (seq lo n) a.
Proof.
  revert lo a. induction n as [|n IH]; intros lo a; simpl; [reflexivity | apply IH].
Qed.

Lemma fsum_S (f : nat -> float) (n : nat) : fsum f (S n) = fsum f n + f n.
Proof. unfold fsum. rewrite seq_S, fold_left_app. reflexivity. Qed.

(** The first loop, after [k] iterations. *)
Lemma fit_loop_sums (this : RefreshRateCalculator) (k : nat) :
  for_loop k 0 (fit_body this) {| sx := 0; sy := 0; sxx := 0; sxy := 0; bigX := 0 |}
  = {| sx := fsum (fit_X this) k;
       sy := fsum (fit_Y this) k;
       sxx := fsum (fun i => fit_X this i * fit_X this i) k;
       sxy := fsum (fun i => fit_X this i * fit_Y this i) k;
       bigX := match k with O => 0 | S j => fit_X this j end |}.
Proof.
  induction k as [|k IH]; [reflexivity|].
  rewrite for_loop_snoc, IH, !fsum_S. simpl Nat.add.
  unfold fit_body. cbn [sx sy sxx sxy bigX].
  assert (HX : (match k with O => 0 | S j => fit_X this j end)
               + (if (0 <? k)%nat
                  then JS.round ((JS.get (_m_S this) k - JS.get (_m_S this) (k - 1))
                                 / _m_ms this)
                  else 0) = fit_X this k).
  { destruct k as [|j]; [reflexivity|]. simpl Nat.ltb. simpl Nat.sub.
    rewrite Nat.sub_0_r. reflexivity. }
  rewrite HX. reflexivity.
Qed.

(** The second loop keeps its two extremes independently. *)
Lemma drift_loop_extremes (this : RefreshRateCalculator) (tb halfms : float) (l : list nat)
  (a : float * float) :
  fold_left (fun acc i => drift_body this tb halfms i acc) l a
  = (fold_left (fun x i => JS.max2 x
                 (JS.rem (JS.get (_m_D this) i - tb + halfms) (_m_ms this) - halfms)) l (fst a),
     fold_left (fun x i => JS.min2 x
                 (JS.rem (JS.get (_m_D this) i - tb + halfms) (_m_ms this) - halfms)) l (snd a)).
Proof.
  revert a. induction l as [|i l IH]; intros [mx mn]; simpl; [reflexivity|].
  rewrite IH. reflexivity.
Qed.

Lemma __validate_fit (this : RefreshRateCalculator) :
  __validate this
  = if fit_accepted this
    then (fit_report this,
          set_m_tvsync (fit_timebase this + fit_min this) (set_m_ms (fit_slope this) this))
    else (EmptyString, __reset (set_m_ms (fit_slope this) this)).
Proof.
  unfold __validate. cbv zeta.
  rewrite fit_loop_sums. cbn [sx sy sxx sxy bigX].
  rewrite for_loop_fold, drift_loop_extremes. cbn [fst snd].
  reflexivity.
Qed.

(** ** [__add] follows the relation *)

Lemma update_fit (this : RefreshRateCalculator) (tFrame : float) :
  update this tFrame
  = if due this tFrame then
      let v := set_tUpdate tFrame this in
      if fit_accepted v
      then (Validated,
            set_m_vi (fit_report v)
              (set_m_tvsync (fit_timebase v + fit_min v) (set_m_ms (fit_slope v) v)))
      else (DriftReset, __reset (set_m_ms (fit_slope v) v))
    else (Stored, this).
Proof.
  unfold update. destruct (due this tFrame); [|reflexivity]. cbv zeta.
  rewrite __validate_fit. destruct (fit_accepted (set_tUpdate tFrame this)); reflexivity.
Qed.

Lemma adds_path (this : RefreshRateCalculator) (tFrame : float) :
  adds this tFrame (path this tFrame) (__add this tFrame).
Proof.
  unfold path, __add.
  destruct (tight this tFrame) eqn:Ht.
  2:{ rewrite (__add_path_loose _ _ Ht). now constructor. }
  destruct (Z.lt_ge_cases (_nJavaScriptSkip this - 1) 0) as [Hjs|Hjs].
  2:{ rewrite (__add_path_startup _ _ Ht Hjs). now constructor. }
  destruct (Z.lt_ge_cases (_nSkip this - 1) 0) as [Hsk|Hsk].
  2:{ rewrite (__add_path_skipped _ _ Ht Hjs Hsk). now constructor. }
  rewrite (__add_path_gated _ _ Ht Hjs Hsk). fold (above_floor this tFrame).
  destruct (above_floor this tFrame) eqn:Hf.
  2:{ now constructor. }
  cbv zeta. fold (tracked this tFrame).
  destruct (Z.ltb_spec 20 (_m_nChange (tracked this tFrame))) as [Hc|Hc].
  { now constructor. }
  rewrite update_fit. destruct (due (store (tracked this tFrame)) tFrame) eqn:Hd.
  2:{ now constructor. }
  cbv zeta. fold (validating this tFrame).
  destruct (fit_accepted (validating this tFrame)) eqn:Ha; now constructor.
Qed.

(** The relation is a function: the conditions of its rules exclude one
    another. *)
Lemma adds_functional (this : RefreshRateCalculator) (tFrame : float)
  (p : Path) (s : RefreshRateCalculator) :
  adds this tFrame p s -> p = path this tFrame /\ s = __add this tFrame.
Proof.
  intros H. pose proof (adds_path this tFrame) as G.
  destruct H; inversion G; subst; try (split; congruence); try lia; try congruence.
Qed.

(** ** What the blocks of [__add] leave alone *)

Lemma track_frame (s : RefreshRateCalculator) (av g : float) :
  same_tunables s (track s av g)
  /\ _m_D (track s av g) = _m_D s /\ _m_S (track s av g) = _m_S s
  /\ _nSkip (track s av g) = _nSkip s /\ _nSkipBase (track s av g) = _nSkipBase s
  /\ _nJavaScriptSkip (track s av g) = _nJavaScriptSkip s
  /\ _cycleCount (track s av g) = _cycleCount s
  /\ _m_vi (track s av g) = _m_vi s /\ _m_tvsync (track s av g) = _m_tvsync s
  /\ _tUpdate (track s av g) = _tUpdate s
  /\ _L0 (track s av g) = _L0 s /\ _L1 (track s av g) = _L1 s
  /\ _L2 (track s av g) = _L2 s /\ _L3 (track s av g) = _L3 s
  /\ _L4 (track s av g) = _L4 s.
Proof.
  unfold track, same_tunables. destruct (bHzChanged s av); cbn.
  - repeat split.
  - match goal with |- context [if ?c then _ else _] => destruct c end;
      cbn; repeat split.
Qed.

Lemma store_frame (s : RefreshRateCalculator) :
  same_tunables s (store s)
  /\ _m_nChange (store s) = _m_nChange s /\ _m_summs (store s) = _m_summs s
  /\ _m_nms (store s) = _m_nms s /\ _m_ms (store s) = _m_ms s
  /\ _m_vi (store s) = _m_vi s /\ _m_tvsync (store s) = _m_tvsync s
  /\ _tUpdate (store s) = _tUpdate s
  /\ _nJavaScriptSkip (store s) = _nJavaScriptSkip s
  /\ _cycleCount (store s) = _cycleCount s
  /\ _L0 (store s) = _L0 s /\ _L1 (store s) = _L1 s
  /\ _L2 (store s) = _L2 s /\ _L3 (store s) = _L3 s
  /\ _L4 (store s) = _L4 s.
Proof.
  unfold store, same_tunables.
  destruct (_MAXSTORE s <=? Z.of_nat (length (_m_D s)))%Z; cbn; repeat split.
Qed.

(** The store and the stride after [store]. *)
Lemma store_sample (s : RefreshRateCalculator) :
  length (_m_D s) = length (_m_S s) ->
  let full := (_MAXSTORE s <=? Z.of_nat (length (_m_D s)))%Z in
  _m_D (store s) = (if full then evens (_m_D s) else _m_D s) ++ [_L2 s]
  /\ _m_S (store s)
     = (if full then evens (_m_S s) else _m_S s)
       ++ [(_L0 s + _L1 s + _L2 s + _L3 s + _L4 s) / 5]
  /\ _nSkipBase (store s) = (if full then _nSkipBase s * 2 + 1 else _nSkipBase s)%Z
  /\ _nSkip (store s) = _nSkipBase (store s).
Proof.
  intros Hlen full. unfold store. fold full. destruct full; cbn -[__cut JS.set].
  - rewrite !__cut_evens, set_at_length.
    replace (length (evens (_m_D s))) with (length (evens (_m_S s)))
      by (rewrite !evens_length; congruence).
    rewrite set_at_length. repeat split.
  - rewrite set_at_length, Hlen, set_at_length. repeat split.
Qed.

(** Case analysis on the way a call takes through [__add]. *)
Ltac by_path this t :=
  unfold countCycle in *;
  pattern (path this t), (__add this t);
  eapply (adds_ind this t); [ .. | apply adds_path ].

(** A call that is not above the floor leaves the store and the estimate. *)
Lemma slow_call_keeps_store (this : RefreshRateCalculator) (tFrame : float) :
  above_floor this tFrame = false ->
  _m_D (__add this tFrame) = _m_D this /\ _m_ms (__add this tFrame) = _m_ms this.
Proof.
  intros Hf. by_path this tFrame; intros; try congruence; split; reflexivity.
Qed.

(** ** The invariant of the reachable states *)

Lemma store_sets_skip (s : RefreshRateCalculator) : _nSkip (store s) = _nSkipBase (store s).
Proof.
  unfold store. destruct (_MAXSTORE s <=? Z.of_nat (length (_m_D s)))%Z; reflexivity.
Qed.

Lemma store_stays_bounded (s : RefreshRateCalculator) :
  (2 <= _MAXSTORE s)%Z -> store_bounded s -> store_bounded (store s).
Proof.
  intros HM [Hlen Hcap]. unfold store_bounded.
  destruct (store_frame s) as ((_ & _ & _ & EM & _) & _).
  destruct (store_sample s Hlen) as (ED & ES & _). cbv zeta in ED, ES.
  rewrite ED, ES, EM, !length_app. simpl length.
  destruct (Z.leb_spec (_MAXSTORE s) (Z.of_nat (length (_m_D s)))) as [Hfull|Hroom].
  - rewrite !evens_length, <- Hlen. split; [reflexivity|].
    rewrite Nat.div2_div.
    pose proof (Nat.div_mod_eq (S (length (_m_D s))) 2) as Hq.
    pose proof (Nat.mod_upper_bound (S (length (_m_D s))) 2) as Hr.
    lia.
  - split; [congruence | lia].
Qed.

Lemma stride_series_next (n : nat) :
  ((2 ^ Z.of_nat n - 1) * 2 + 1 = 2 ^ Z.of_nat (S n) - 1)%Z.
Proof. rewrite Nat2Z.inj_succ, Z.pow_succ_r by lia. lia. Qed.

Lemma store_keeps_series (s : RefreshRateCalculator) :
  (exists n : nat, _nSkipBase s = (2 ^ Z.of_nat n - 1)%Z) ->
  exists n : nat, _nSkipBase (store s) = (2 ^ Z.of_nat n - 1)%Z.
Proof.
  intros [n Hn]. unfold store.
  destruct (_MAXSTORE s <=? Z.of_nat (length (_m_D s)))%Z; fields.
  - exists (S n). rewrite Hn. apply stride_series_next.
  - now exists n.
Qed.

Lemma tracked_frame (this : RefreshRateCalculator) (tFrame : float) :
  same_tunables this (tracked this tFrame)
  /\ _m_D (tracked this tFrame) = _m_D this /\ _m_S (tracked this tFrame) = _m_S this
  /\ _nSkipBase (tracked this tFrame) = _nSkipBase this
  /\ _cycleCount (tracked this tFrame) = (_cycleCount this + 1)%Z
  /\ _nJavaScriptSkip (tracked this tFrame) = (_nJavaScriptSkip this - 1)%Z
  /\ _L0 (tracked this tFrame) = _L1 this /\ _L1 (tracked this tFrame) = _L2 this
  /\ _L2 (tracked this tFrame) = _L3 this /\ _L3 (tracked this tFrame) = _L4 this
  /\ _L4 (tracked this tFrame) = tFrame.
Proof.
  unfold tracked.
  destruct (track_frame (gated this tFrame) (avems (shift this tFrame))
              (grouping (shift this tFrame)))
    as (T & D & S & _ & B & J & C & _ & _ & _ & L0 & L1 & L2 & L3 & L4).
  rewrite D, S, B, C, J, L0, L1, L2, L3, L4. unfold same_tunables in *.
  destruct T as (T1 & T2 & T3 & T4 & T5). rewrite T1, T2, T3, T4, T5.
  fields. repeat split.
Qed.

Lemma invariant_constructor : invariant constructor.
Proof.
  unfold invariant, store_bounded, same_tunables. simpl. repeat split; try lia.
  now exists 0%nat.
Qed.

Lemma invariant_reset (s : RefreshRateCalculator) :
  same_tunables constructor s -> invariant (__reset s).
Proof.
  intros (T1 & T2 & T3 & T4 & T5).
  unfold invariant, store_bounded, same_tunables. fields.
  rewrite T4. simpl. repeat split; try assumption; try lia. now exists 0%nat.
Qed.

Lemma same_tunables_trans (a b c : RefreshRateCalculator) :
  same_tunables a b -> same_tunables b c -> same_tunables a c.
Proof. unfold same_tunables. intuition congruence. Qed.

Lemma invariant_add (this : RefreshRateCalculator) (tFrame : float) :
  invariant this -> invariant (__add this tFrame).
Proof.
  intros (B & T & C & N).
  destruct (tracked_frame this tFrame) as (TT & TD & TS & TB & TC & _).
  assert (Tu : same_tunables constructor (tracked this tFrame))
    by (eapply same_tunables_trans; eassumption).
  assert (Bu : store_bounded (tracked this tFrame)).
  { destruct B as [B1 B2]. destruct TT as (_ & _ & _ & EM & _).
    unfold store_bounded. rewrite TD, TS, EM. now split. }
  assert (HM : (2 <= _MAXSTORE (tracked this tFrame))%Z).
  { destruct Tu as (_ & _ & _ & EM & _). rewrite EM. simpl. lia. }
  assert (Is : invariant (store (tracked this tFrame))).
  { destruct (store_frame (tracked this tFrame)) as (ST & _ & _ & _ & _ & _ & _ & _ & _ & SC & _).
    split; [now apply store_stays_bounded|]. split.
    { eapply same_tunables_trans; eassumption. }
    split; [rewrite SC, TC; lia|].
    apply store_keeps_series. rewrite TB. exact N. }
  by_path this tFrame; intros.
  - destruct B, T as (? & ? & ? & ? & ?).
    unfold invariant, store_bounded, same_tunables. fields. repeat split; try assumption; lia.
  - destruct B, T as (? & ? & ? & ? & ?).
    unfold invariant, store_bounded, same_tunables. fields. repeat split; try assumption; lia.
  - destruct B, T as (? & ? & ? & ? & ?).
    unfold invariant, store_bounded, same_tunables. fields. repeat split; try assumption; lia.
  - destruct B, T as (? & ? & ? & ? & ?).
    unfold invariant, store_bounded, same_tunables. fields. repeat split; try assumption; lia.
  - now apply invariant_reset.
  - exact Is.
  - destruct Is as ((? & ?) & (? & ? & ? & ? & ?) & ? & ?).
    unfold invariant, store_bounded, same_tunables. fields. repeat split; assumption.
  - apply invariant_reset.
    destruct Is as (_ & (? & ? & ? & ? & ?) & _).
    unfold same_tunables. fields. repeat split; assumption.
Qed.

Lemma invariant_call (this : RefreshRateCalculator) (c : Call) :
  invariant this -> invariant (call this c).
Proof.
  intros I. destruct c as [t|n|]; simpl.
  - now apply invariant_add.
  - destruct I as ((? & ?) & (? & ? & ? & ? & ?) & ? & ?).
    unfold ignoreNextCycle, invariant, store_bounded, same_tunables. fields.
    repeat split; assumption.
  - apply invariant_reset. now destruct I as (_ & T & _).
Qed.

Lemma invariant_run (cs : list Call) (this : RefreshRateCalculator) :
  invariant this -> invariant (run this cs).
Proof.
  revert this. induction cs as [|c cs IH]; intros this I; simpl; [exact I|].
  apply IH. now apply invariant_call.
Qed.

Lemma invariant_reachable (this : RefreshRateCalculator) :
  reachable this -> invariant this.
Proof. intros [cs ->]. apply invariant_run, invariant_constructor. Qed.

(** ** The skip gate *)

Lemma tight_calls_nonneg (ts : list float) (this : RefreshRateCalculator) :
  (0 <= tight_calls this ts)%Z.
Proof.
  revert this. induction ts as [|t ts IH]; intros this; simpl; [lia|].
  specialize (IH (__add this t)). destruct (tight this t); lia.
Qed.

(** While [_nSkip] lasts, tight groups are absorbed one for one. *)
Lemma skip_gate_absorbs (ts : list float) (this : RefreshRateCalculator) :
  (_nJavaScriptSkip this <= 0)%Z ->
  (tight_calls this ts <= _nSkip this)%Z ->
  _m_D (cycles this ts) = _m_D this /\ _m_S (cycles this ts) = _m_S this
  /\ _nSkipBase (cycles this ts) = _nSkipBase this
  /\ _nSkip (cycles this ts) = (_nSkip this - tight_calls this ts)%Z
  /\ (_nJavaScriptSkip (cycles this ts) <= 0)%Z.
Proof.
  revert this. induction ts as [|t ts IH]; intros this Hjs Hk; simpl in *.
  - repeat split; lia.
  - pose proof (tight_calls_nonneg ts (__add this t)) as H0.
    assert (Hstep : _m_D (__add this t) = _m_D this /\ _m_S (__add this t) = _m_S this
              /\ _nSkipBase (__add this t) = _nSkipBase this
              /\ _nSkip (__add this t)
                 = (_nSkip this - (if tight this t then 1 else 0))%Z
              /\ (_nJavaScriptSkip (__add this t) <= 0)%Z).
    { by_path this t; intros;
        repeat match goal with H : tight this t = _ |- _ => rewrite H in * end;
        try lia; fields; repeat split; lia. }
    destruct Hstep as (ED & ES & EB & EK & EJ).
    destruct (IH (__add this t)) as (D' & S' & B' & K' & J'); [exact EJ | lia |].
    unfold cycles in *. rewrite D', S', B', K'. repeat split; try congruence; lia.
Qed.

(** With both skip counters used up, a tight group gets past the gates. *)
Lemma skip_gate_opens (this : RefreshRateCalculator) (tFrame : float) :
  (_nJavaScriptSkip this <= 0)%Z ->
  (_nSkip this <= 0)%Z ->
  tight this tFrame = true ->
  path this tFrame <> Loose /\ path this tFrame <> Skipped.
Proof.
  intros Hjs Hk Ht. by_path this tFrame; intros; try congruence; try lia;
    split; discriminate.
Qed.

(** ** Resets, the cycle count and the validation flag *)

(** The state a reset leaves is a fixed point of [__reset]. *)
Lemma __reset_idempotent (s : RefreshRateCalculator) : __reset (__reset s) = __reset s.
Proof. reflexivity. Qed.

(** One call and the cycle count. *)
Lemma count_step (this : RefreshRateCalculator) (c : Call) :
  getCount (call this c)
  = (if resets this c then 0
     else match c with CountCycle _ => getCount this + 1 | _ => getCount this end)%Z.
Proof.
  unfold getCount in *. destruct c as [t|n|]; simpl call; simpl resets.
  - by_path this t; intros; fields;
      try (destruct (store_frame (tracked this t)) as (_ & _ & _ & _ & _ & _ & _ & _ & _ & SC & _);
           destruct (tracked_frame this t) as (_ & _ & _ & _ & TC & _);
           rewrite ?SC, ?TC);
      reflexivity.
  - reflexivity.
  - reflexivity.
Qed.


(** ** Division by a zero denominator in the validator *)

Lemma eqb_zero_null (x : float) : (x =? 0) = true -> is_null x.
Proof.
  rewrite eqb_spec. change (Prim2SF 0) with (S754_zero false).
  unfold SFeqb, is_null. destruct (Prim2SF x) as [s|s| |s m e]; simpl; try discriminate.
  - eauto.
  - destruct s; discriminate.
  - destruct s; discriminate.
Qed.

Lemma div_by_null (x y : float) : is_null y -> is_void (x / y) \/ is_unbounded (x / y).
Proof.
  intros [s Hy]. unfold is_void, is_unbounded. rewrite div_spec, Hy.
  destruct (Prim2SF x); simpl; eauto.
Qed.

Lemma void_is_nan (x : float) : is_void x -> is_nan x = true.
Proof. unfold is_void, is_nan. intros H. rewrite eqb_spec, H. reflexivity. Qed.

Lemma unbounded_is_infinity (x : float) : is_unbounded x -> is_infinity x = true.
Proof.
  intros [s H]. unfold is_infinity. rewrite eqb_spec, abs_spec, H. reflexivity.
Qed.

Lemma half_void (x : float) : is_void x -> is_void (x / 2).
Proof. unfold is_void. intros H. rewrite div_spec, H. reflexivity. Qed.

Lemma half_unbounded (x : float) : is_unbounded x -> is_unbounded (x / 2).
Proof.
  intros [s H]. unfold is_unbounded. rewrite div_spec, H.
  change (Prim2SF 2) with (S754_finite false 4503599627370496 (-51)).
  simpl. eauto.
Qed.

Lemma ltb_void_r (x y : float) : is_void y -> (x <? y) = false.
Proof.
  unfold is_void. intros H. rewrite ltb_spec, H. unfold SFltb.
  destruct (Prim2SF x); reflexivity.
Qed.

Lemma ltb_void_l (x y : float) : is_void x -> (x <? y) = false.
Proof. unfold is_void. intros H. rewrite ltb_spec, H. reflexivity. Qed.

Lemma add_unbounded (x h : float) :
  is_unbounded h -> is_void (x + h) \/ is_unbounded (x + h).
Proof.
  intros [s H]. unfold is_void, is_unbounded. rewrite add_spec, H.
  destruct (Prim2SF x) as [sx|sx| |sx m e]; simpl; eauto.
  destruct sx, s; eauto.
Qed.

Lemma sub_void_l (x y : float) : is_void x -> is_void (x - y).
Proof. unfold is_void. intros H. rewrite sub_spec, H. reflexivity. Qed.

Lemma sub_void_r (x y : float) : is_void y -> is_void (x - y).
Proof.
  unfold is_void. intros H. rewrite sub_spec, H. destruct (Prim2SF x); reflexivity.
Qed.

Lemma void_eq_nan (x : float) : is_void x -> x = nan.
Proof. intros H. apply Prim2SF_inj. rewrite H. reflexivity. Qed.

Lemma rem_void (n d : float) : is_void n \/ is_unbounded n -> JS.rem n d = nan.
Proof.
  intros H. unfold JS.rem.
  destruct H as [H|H].
  - rewrite (void_is_nan n H). reflexivity.
  - rewrite (unbounded_is_infinity n H), !orb_true_r. reflexivity.
Qed.

Lemma min2_void_r (a x : float) : is_void x -> JS.min2 a x = nan.
Proof. intros H. unfold JS.min2. rewrite (void_is_nan x H), orb_true_r. reflexivity. Qed.

Lemma fold_min2_nan (g : nat -> float) (l : list nat) :
  fold_left (fun a i => JS.min2 a (g i)) l nan = nan.
Proof. induction l as [|i l IH]; simpl; [reflexivity|]. exact IH. Qed.


Lemma sub_self_hollow (x : float) : is_hollow (x - x).
Proof.
  unfold is_hollow, is_null, is_void. rewrite sub_spec.
  destruct (Prim2SF x) as [s|s| |s m e]; simpl.
  - left. destruct s; eauto.
  - right. destruct s; reflexivity.
  - now right.
  - left. rewrite Z.sub_diag. simpl. eauto.
Qed.

Lemma mul_null_hollow (x y : float) : is_null x -> is_hollow y -> is_hollow (x * y).
Proof.
  intros [s Hx] [[t Hy]|Hy]; unfold is_hollow, is_null, is_void in *;
    rewrite mul_spec, Hx, Hy; simpl; eauto.
Qed.

Lemma add_null_hollow (x y : float) : is_null x -> is_hollow y -> is_hollow (x + y).
Proof.
  intros [s Hx] [[t Hy]|Hy]; unfold is_hollow, is_null, is_void in *;
    rewrite add_spec, Hx, Hy; simpl; eauto.
  destruct s, t; eauto.
Qed.

Lemma one_mul_hollow (y : float) : is_hollow y -> is_hollow (1 * y).
Proof.
  intros [[t Hy]|Hy]; unfold is_hollow, is_null, is_void in *;
    rewrite mul_spec, Hy; change (Prim2SF 1) with (S754_finite false 4503599627370496 (-52));
    simpl; eauto.
Qed.

Lemma sub_hollow (x y : float) : is_hollow x -> is_hollow y -> is_hollow (x - y).
Proof.
  intros [[s Hx]|Hx] [[t Hy]|Hy]; unfold is_hollow, is_null, is_void in *;
    rewrite sub_spec, Hx, ?Hy; simpl; eauto;
    try (destruct s, t; eauto); try (right; destruct s; reflexivity).
Qed.

Lemma div_hollow_null (x y : float) : is_hollow x -> is_null y -> is_void (x / y).
Proof.
  intros [[s Hx]|Hx] [t Hy]; unfold is_void; rewrite div_spec, Hx, Hy; reflexivity.
Qed.

Lemma zero_null : is_null 0.
Proof. now exists false. Qed.

Lemma void_not_unbounded (x : float) : is_void x -> is_unbounded x -> False.
Proof. intros H [s H']. unfold is_void in H. congruence. Qed.

Lemma small_store_void_slope (this : RefreshRateCalculator) :
  (length (_m_D this) <= 1)%nat -> is_void (fit_slope this).
Proof.
  intros H.
  unfold fit_slope, fit_denominator, fit_N, fit_sx, fit_sy, fit_sxx, fit_sxy.
  destruct (_m_D this) as [|d [|d' rest]] eqn:HD; simpl in H; [| |lia].
  - reflexivity.
  - unfold fsum, fit_X, fit_Y. rewrite HD. simpl fold_left. simpl cycle_index.
    unfold JS.get. simpl nth. simpl length.
    change (JS.ofZ (Z.of_nat 1)) with 1.
    change (0 + 0 * 0) with 0. change (0 + 0) with 0. change (1 * 0 - 0 * 0) with 0.
    apply div_hollow_null; [|apply zero_null].
    pose proof (sub_self_hollow d) as Hd.
    apply sub_hollow.
    + apply one_mul_hollow, add_null_hollow; [apply zero_null|].
      apply mul_null_hollow; [apply zero_null | exact Hd].
    + apply mul_null_hollow; [apply zero_null|].
      apply add_null_hollow; [apply zero_null | exact Hd].
Qed.

Lemma nan_void : is_void nan.
Proof. reflexivity. Qed.

(** With an infinite half interval every residual is NaN. *)
Lemma unbounded_half_void_offset (this : RefreshRateCalculator) (i : nat) :
  is_unbounded (fit_halfMs this) -> is_void (fit_offset this i).
Proof.
  intros Hh. unfold fit_offset.
  rewrite (rem_void _ (fit_slope this)
             (add_unbounded (JS.get (_m_D this) i - fit_timebase this) _ Hh)).
  apply sub_void_l, nan_void.
Qed.

Lemma zero_denominator_rejected (this : RefreshRateCalculator) :
  (fit_denominator this =? 0) = true -> fit_accepted this = false.
Proof.
  intros Hden. apply eqb_zero_null in Hden. unfold fit_accepted.
  destruct (div_by_null (fit_N this * fit_sxy this - fit_sx this * fit_sy this) _ Hden)
    as [Hv|Hu]; fold (fit_slope this) in *.
  - apply ltb_void_r. unfold fit_halfMs. now apply half_void.
  - assert (Hh : is_unbounded (fit_halfMs this)) by (now apply half_unbounded).
    destruct (le_lt_dec (length (_m_D this)) 1) as [Hs|Hl].
    + exfalso. exact (void_not_unbounded _ (small_store_void_slope this Hs) Hu).
    + apply ltb_void_l, sub_void_r. unfold fit_min.
      destruct (length (_m_D this)) as [|[|k]]; try lia.
      simpl Nat.sub. simpl seq. simpl fold_left.
      rewrite (min2_void_r 0 _ (unbounded_half_void_offset this 1 Hh)).
      rewrite fold_min2_nan. apply nan_void.
Qed.

(** A reset leaves the cleared state, whatever the state was. *)
Lemma reset_cleared (s : RefreshRateCalculator) : cleared (__reset s).
Proof. unfold cleared. repeat split. Qed.
(** ** The grouping filter *)


(** ** The change tracker *)

(** C3: on a tight group that passes both skip gates and the low-rate floor,
    with [av] the mean delta of the window: if the running mean has at least
    11 samples and [av] is more than [_MSCHANGE] away from it, the change
    counter grows by one and [av] is left out of the running mean; otherwise
    the counter returns to 0 and [av] is added to the sum and the count.
    When the counter then exceeds 20 the call resets all statistics: it ends
    with no cycle counted, a window of zeros, an empty store, no estimate, and
    the running mean, the change counter and the skip counters at zero; as the
    counter grows by one at a time from 0, that is the 21st deviating
    admission in a row.  Otherwise the call goes on to the store, and unless
    the validator then resets, the counter and the running mean stay as the
    tracker left them. *)
Theorem hz_change_counter (this : RefreshRateCalculator) (tFrame : float) :
  let av := avems (shift this tFrame) in
  let mean := _m_summs this / JS.ofZ (_m_nms this) in
  let deviates := (11 <=? _m_nms this)%Z && (_MSCHANGE this <? abs (av - mean)) in
  let u := tracked this tFrame in
  tight this tFrame = true ->
  (_nJavaScriptSkip this - 1 < 0)%Z ->
  (_nSkip this - 1 < 0)%Z ->
  above_floor this tFrame = true ->
  (deviates = true ->
     _m_nChange u = (_m_nChange this + 1)%Z
     /\ _m_summs u = _m_summs this /\ _m_nms u = _m_nms this)
  /\ (deviates = false ->
        _m_nChange u = 0%Z
        /\ _m_summs u = _m_summs this + av /\ _m_nms u = (_m_nms this + 1)%Z)
  /\ ((20 < _m_nChange u)%Z <-> deviates = true /\ (20 <= _m_nChange this)%Z)
  /\ ((20 < _m_nChange u)%Z ->
        path this tFrame = HzReset /\ countCycle this tFrame = __reset u
        /\ cleared (countCycle this tFrame)
        /\ getCount (countCycle this tFrame) = 0%Z
        /\ getCurrentFrequency (countCycle this tFrame) = 0
        /\ getFilteredCycleTimestamp (countCycle this tFrame) = None)
  /\ ((_m_nChange u <= 20)%Z ->
        __add_path this tFrame = update (store u) tFrame
        /\ (path this tFrame = DriftReset
            \/ (_m_nChange (countCycle this tFrame) = _m_nChange u
                /\ _m_summs (countCycle this tFrame) = _m_summs u
                /\ _m_nms (countCycle this tFrame) = _m_nms u))).
Proof.
  intros av mean deviates u Ht Hjs Hsk Hf.
  assert (Hdev : bHzChanged (gated this tFrame) av = deviates).
  { unfold bHzChanged, deviates, mean. cbn.
    f_equal. destruct (Z.ltb_spec 10 (_m_nms this)), (Z.leb_spec 11 (_m_nms this));
      try reflexivity; lia. }
  assert (Hu : u = track (gated this tFrame) av (grouping (shift this tFrame)))
    by reflexivity.
  assert (H1 : deviates = true ->
     _m_nChange u = (_m_nChange this + 1)%Z
     /\ _m_summs u = _m_summs this /\ _m_nms u = _m_nms this).
  { intros Hd. rewrite Hu. unfold track. rewrite Hdev, Hd. cbn. repeat split. }
  assert (H2 : deviates = false ->
        _m_nChange u = 0%Z
        /\ _m_summs u = _m_summs this + av /\ _m_nms u = (_m_nms this + 1)%Z).
  { intros Hd. rewrite Hu. unfold track. rewrite Hdev, Hd. cbn.
    match goal with |- context [if ?c then _ else _] => destruct c end;
      cbn; repeat split. }
  assert (Hg := __add_path_gated this tFrame Ht Hjs Hsk).
  fold (above_floor this tFrame) in Hg. rewrite Hf in Hg. cbv zeta in Hg.
  fold (tracked this tFrame) in Hg. fold u in Hg.
  split; [exact H1|]. split; [exact H2|]. split; [|split].
  - destruct deviates.
    + destruct (H1 eq_refl) as (-> & _). split; [intros; split; [reflexivity | lia] | lia].
    + destruct (H2 eq_refl) as (-> & _). split; [lia | intros [? _]; discriminate].
  - intros Hc. unfold path, countCycle, __add. rewrite Hg.
    destruct (Z.ltb_spec 20 (_m_nChange u)); [|lia].
    split; [reflexivity|]. split; [reflexivity|]. split; [apply reset_cleared|].
    repeat split.
  - intros Hc. destruct (Z.ltb_spec 20 (_m_nChange u)); [lia|].
    split; [exact Hg|]. unfold path, countCycle, __add. rewrite Hg, update_fit.
    destruct (store_frame u) as (_ & Sc & Ss & Sn & _).
    destruct (due (store u) tFrame); cbv zeta;
      [destruct (fit_accepted _); [right | left; reflexivity] | right];
      fields; rewrite ?Sc, ?Ss, ?Sn; repeat split.
Qed.

(** ** The low-rate floor *)

(** C5: a tight group that passes both skip gates and whose mean delta
    [(L4 - L0) / 4] is at or above [1000 / _LOWESTVALIDHZ] (35 Hz by default)
    is dropped: the call leaves the window shifted, the cycle counted and the
    two skip counters decremented, and nothing else changed.  Hence, from an
    empty store and an unprimed interval, a run in which every window has
    such a mean delta stores no sample, and [getCurrentFrequency] stays 0. *)
Theorem low_rate_dropped (this : RefreshRateCalculator) (tFrame : float)
  (ts : list float) :
  _LOWESTVALIDHZ constructor = 35%Z
  /\ avems (shift this tFrame) = (tFrame - _L1 this) / 4
  /\ (tight this tFrame = true ->
      (_nJavaScriptSkip this - 1 < 0)%Z ->
      (_nSkip this - 1 < 0)%Z ->
      (floor_ms this <=? avems (shift this tFrame)) = true ->
      path this tFrame = Inactive
      /\ window_shifted this tFrame (countCycle this tFrame)
      /\ same_statistics this (countCycle this tFrame)
      /\ _nJavaScriptSkip (countCycle this tFrame) = (_nJavaScriptSkip this - 1)%Z
      /\ _nSkip (countCycle this tFrame) = (_nSkip this - 1)%Z)
  /\ (_m_D this = [] ->
      JS.truthy (_m_ms this) = false ->
      always_slow this ts ->
      _m_D (cycles this ts) = [] /\ getCurrentFrequency (cycles this ts) = 0).
Proof.
  split; [reflexivity|]. split; [reflexivity|]. split.
  - intros Ht Hjs Hsk Hf. apply ltb_false_of_leb in Hf.
    unfold countCycle, path, __add. rewrite (__add_path_gated _ _ Ht Hjs Hsk).
    fold (above_floor this tFrame). unfold floor_ms in Hf. unfold above_floor, floor_ms.
    rewrite Hf. unfold window_shifted, same_statistics. fields. repeat split.
  - revert this. induction ts as [|t ts IH]; intros this HD Hms Hslow.
    + split; [exact HD|]. unfold getCurrentFrequency, __calc. simpl. now rewrite Hms.
    + destruct Hslow as [Hf Hslow]. apply ltb_false_of_leb in Hf.
      destruct (slow_call_keeps_store this t Hf) as [ED Ems].
      apply IH; [congruence | congruence | exact Hslow].
Qed.

(** ** The bounded sample store *)

(** C4: [__cut] keeps exactly the elements at the even indices.  When a call
    reaches the store step with the store at [_MAXSTORE], both sequences are
    cut that way before the new sample (the middle of the window, and the
    mean of the window) is appended, and the stride becomes [stride * 2 + 1];
    in every reachable state the stride is of the series [2^n - 1].  Every
    stored sample sets the skip counter to the stride.  A skip counter [k]
    absorbs the next [k] tight groups: the store and the stride stay as they
    are while the counter runs down to 0, and the tight group after those
    gets past the skip gate. *)
Theorem store_downsampling (this : RefreshRateCalculator) (tFrame : float)
  (ts : list float) (arr : list float) (i : nat) :
  nth_error (__cut arr) i = nth_error arr (2 * i)
  /\ (tight this tFrame = true ->
      (_nJavaScriptSkip this - 1 < 0)%Z ->
      (_nSkip this - 1 < 0)%Z ->
      above_floor this tFrame = true ->
      (_m_nChange (tracked this tFrame) <= 20)%Z ->
      length (_m_D this) = length (_m_S this) ->
      (_MAXSTORE this <= Z.of_nat (length (_m_D this)))%Z ->
      let v := store (tracked this tFrame) in
      __add_path this tFrame = update v tFrame
      /\ _m_D v = __cut (_m_D this) ++ [_L3 this]
      /\ _m_S v = __cut (_m_S this)
                  ++ [(_L1 this + _L2 this + _L3 this + _L4 this + tFrame) / 5]
      /\ _nSkipBase v = (_nSkipBase this * 2 + 1)%Z
      /\ _nSkip v = _nSkipBase v
      /\ (path this tFrame = DriftReset
          \/ (_m_D (countCycle this tFrame) = _m_D v
              /\ _m_S (countCycle this tFrame) = _m_S v
              /\ _nSkipBase (countCycle this tFrame) = _nSkipBase v
              /\ _nSkip (countCycle this tFrame) = _nSkip v)))
  /\ _nSkip (store this) = _nSkipBase (store this)
  /\ (reachable this -> exists n : nat, _nSkipBase this = (2 ^ Z.of_nat n - 1)%Z)
  /\ ((_nJavaScriptSkip this <= 0)%Z ->
      (tight_calls this ts <= _nSkip this)%Z ->
      _m_D (cycles this ts) = _m_D this /\ _m_S (cycles this ts) = _m_S this
      /\ _nSkipBase (cycles this ts) = _nSkipBase this
      /\ _nSkip (cycles this ts) = (_nSkip this - tight_calls this ts)%Z
      /\ (tight_calls this ts = _nSkip this ->
          tight (cycles this ts) tFrame = true ->
          path (cycles this ts) tFrame <> Loose
          /\ path (cycles this ts) tFrame <> Skipped)).
Proof.
  split; [rewrite __cut_evens; apply evens_nth_error|]. split; [|split; [|split]].
  - intros Ht Hjs Hsk Hf Hc Hlen Hfull v.
    pose proof (__add_path_gated this tFrame Ht Hjs Hsk) as Hg.
    fold (above_floor this tFrame) in Hg. rewrite Hf in Hg. cbv zeta in Hg.
    fold (tracked this tFrame) in Hg.
    destruct (Z.ltb_spec 20 (_m_nChange (tracked this tFrame))); [lia|]. fold v in Hg.
    destruct (tracked_frame this tFrame)
      as ((_ & _ & _ & EM & _) & TD & TS & TB & _ & _ & L0 & L1 & L2 & L3 & L4).
    assert (Hlen' : length (_m_D (tracked this tFrame)) = length (_m_S (tracked this tFrame)))
      by congruence.
    destruct (store_sample (tracked this tFrame) Hlen') as (ED & ES & EB & EK).
    cbv zeta in ED, ES, EB. rewrite EM, TD in ED, ES, EB.
    destruct (Z.leb_spec (_MAXSTORE this) (Z.of_nat (length (_m_D this)))); [|lia].
    rewrite <- __cut_evens, L2 in ED.
    rewrite TS, <- __cut_evens, L0, L1, L2, L3, L4 in ES. rewrite TB in EB.
    split; [exact Hg|]. fold v in ED, ES, EB, EK.
    repeat (split; [assumption|]).
    unfold path, countCycle, __add. rewrite Hg, update_fit.
    destruct (due v tFrame); cbv zeta;
      [destruct (fit_accepted _); [right | left; reflexivity] | right];
      fields; repeat split.
  - apply store_sets_skip.
  - intros R. now destruct (invariant_reachable this R) as (_ & _ & _ & N).
  - intros Hjs Hk.
    destruct (skip_gate_absorbs ts this Hjs Hk) as (D & S & B & K & J).
    repeat (split; [assumption|]).
    intros Hall Ht. apply skip_gate_opens; [exact J | lia | exact Ht].
Qed.

(** C9: in every reachable state the two sequences of the store have the same
    length, at most [_MAXSTORE], which is 5,000,000 there; [countCycle],
    [ignoreNextCycle] and [restartMeasuring] keep it so, and the accessors
    compute their results from the state without changing it. *)
Theorem store_lengths_invariant (this : RefreshRateCalculator) (c : Call) :
  reachable this ->
  _MAXSTORE this = 5000000%Z
  /\ length (_m_D this) = length (_m_S this)
  /\ (Z.of_nat (length (_m_D this)) <= 5000000)%Z
  /\ length (_m_D (call this c)) = length (_m_S (call this c))
  /\ (Z.of_nat (length (_m_D (call this c))) <= 5000000)%Z.
Proof.
  intros R. pose proof (invariant_reachable this R) as I.
  pose proof (invariant_call this c I) as I'.
  destruct I as ((E & B) & (_ & _ & _ & M & _) & _).
  destruct I' as ((E' & B') & (_ & _ & _ & M' & _) & _).
  change (_MAXSTORE constructor) with 5000000%Z in M, M'.
  rewrite M in B. rewrite M' in B'. repeat split; assumption.
Qed.

(** ** The validator *)

(** The two loops of [__validate] compute the fit as it is worded with sums:
    [_m_ms] becomes the least-squares slope of the raw samples against the
    cycle index (which starts at 0 and grows by the rounded number of
    intervals between consecutive smoothed samples), and [raw[0] + intercept]
    is the candidate timebase.  If [max - min < halfMs] for the extremes the
    second loop tracks, the fit is accepted and [_m_tvsync] is [tb + min];
    otherwise all statistics are reset.  A call that runs the validator leaves
    exactly that state, with the diagnostic string stored in [_m_vi]. *)
Theorem validator_fit_and_drift_check (this : RefreshRateCalculator) (tFrame : float) :
  __validate this
  = (if fit_max this - fit_min this <? fit_halfMs this
     then (fit_report this,
           set_m_tvsync (fit_timebase this + fit_min this)
             (set_m_ms (fit_slope this) this))
     else (EmptyString, __reset (set_m_ms (fit_slope this) this)))
  /\ fit_timebase this = JS.get (_m_D this) 0 + fit_intercept this
  /\ fit_halfMs this = fit_slope this / 2
  /\ (let v := validating this tFrame in
      (path this tFrame = Validated ->
       (fit_max v - fit_min v <? fit_halfMs v) = true
       /\ _m_ms (countCycle this tFrame) = fit_slope v
       /\ _m_tvsync (countCycle this tFrame) = fit_timebase v + fit_min v
       /\ _m_D (countCycle this tFrame) = _m_D v)
      /\ (path this tFrame = DriftReset ->
          (fit_max v - fit_min v <? fit_halfMs v) = false
          /\ countCycle this tFrame = __reset (countCycle this tFrame)
          /\ _m_D (countCycle this tFrame) = [])).
Proof.
  split; [apply __validate_fit|]. split; [reflexivity|]. split; [reflexivity|].
  cbv zeta. split; intros Hp; revert Hp.
  - by_path this tFrame; intros; try discriminate. fields.
    repeat split; assumption.
  - by_path this tFrame; intros; try discriminate. fields.
    repeat split; assumption.
Qed.

(** ** The accessors and the resets *)


(** C7 (amended): [restartMeasuring], and any internal reset, clears the
    statistics whatever the state was: afterwards [getCount] and
    [getCurrentFrequency] return 0, [getFilteredCycleTimestamp] returns null,
    the store is empty, and the window, the running mean, the counters,
    [_m_ms] and [_m_tvsync] are zero.  The tunables and the one-time startup
    skip counter [_nJavaScriptSkip] are not touched by a reset: the calls that
    follow meet what is left of the startup skip, not a fresh one. *)
Theorem reset_clears_statistics (this : RefreshRateCalculator) (tFrame : float) :
  let r := restartMeasuring this in
  getCount r = 0%Z
  /\ getCurrentFrequency r = 0
  /\ getFilteredCycleTimestamp r = None
  /\ _m_D r = [] /\ _m_S r = []
  /\ _m_summs r = 0 /\ _m_nms r = 0%Z /\ _m_nChange r = 0%Z
  /\ _m_ms r = 0 /\ _m_tvsync r = 0 /\ _m_vi r = EmptyString
  /\ _nSkip r = 0%Z /\ _nSkipBase r = 0%Z /\ _tUpdate r = 0
  /\ _L0 r = 0 /\ _L1 r = 0 /\ _L2 r = 0 /\ _L3 r = 0 /\ _L4 r = 0
  /\ same_tunables this r
  /\ _nJavaScriptSkip r = _nJavaScriptSkip this
  /\ (resets this (CountCycle tFrame) = true ->
      countCycle this tFrame = restartMeasuring (countCycle this tFrame)
      /\ _nJavaScriptSkip (countCycle this tFrame) = (_nJavaScriptSkip this - 1)%Z).
Proof.
  cbv zeta. unfold same_tunables.
  repeat split; try reflexivity;
    unfold resets in H; unfold restartMeasuring;
    revert H; by_path this tFrame; intros; try discriminate; fields.
  all: try reflexivity.
  - now destruct (tracked_frame this tFrame) as (_ & _ & _ & _ & _ & J & _).
  - destruct (store_frame (tracked this tFrame)) as (_ & _ & _ & _ & _ & _ & _ & _ & SJ & _).
    destruct (tracked_frame this tFrame) as (_ & _ & _ & _ & _ & J & _).
    congruence.
Qed.

(** What [getCount] returns after a run: every [countCycle] call that does
    not end in a reset raises the count by exactly one, and a call that ends
    in a reset, internal or not, leaves it at 0. *)
Theorem count_since_last_reset (this : RefreshRateCalculator) (tFrame : float)
  (cs : list Call) :
  getCount (countCycle this tFrame)
  = (if resets this (CountCycle tFrame) then 0 else getCount this + 1)%Z
  /\ getCount (run this cs) = since_reset this cs (getCount this).
Proof.
  split; [apply (count_step this (CountCycle tFrame))|].
  revert this. induction cs as [|c cs IH]; intros this; simpl; [reflexivity|].
  rewrite <- count_step. apply IH.
Qed.

(** C10 (amended): the least-squares denominator [N * sxx - sx * sx] can be
    zero when the validator runs, and the two divisions are not guarded; in
    binary64 they do not fail but give NaN or an infinity.  Whenever the
    denominator is zero the drift check fails, so the validator resets all
    statistics and returns the empty diagnostic string.  A call whose
    validator meets a zero denominator never ends as an accepted fit: it ends
    with no cycle counted, a window of zeros, an empty store, no estimate, and
    the running mean and the counters at zero. *)
Theorem zero_denominator_resets (this : RefreshRateCalculator) (tFrame : float) :
  fit_denominator this
  = JS.ofZ (Z.of_nat (length (_m_D this))) * fit_sxx this - fit_sx this * fit_sx this
  /\ ((fit_denominator this =? 0) = true ->
      (is_nan (fit_slope this) = true \/ is_infinity (fit_slope this) = true)
      /\ __validate this = (EmptyString, __reset (set_m_ms (fit_slope this) this))
      /\ cleared (snd (__validate this)))
  /\ ((fit_denominator (validating this tFrame) =? 0) = true ->
      path this tFrame <> Validated
      /\ (path this tFrame = DriftReset ->
          cleared (countCycle this tFrame)
          /\ getCount (countCycle this tFrame) = 0%Z
          /\ getCurrentFrequency (countCycle this tFrame) = 0
          /\ getFilteredCycleTimestamp (countCycle this tFrame) = None)).
Proof.
  split; [reflexivity|]. split.
  - intros H. split.
    + destruct (div_by_null (fit_N this * fit_sxy this - fit_sx this * fit_sy this)
                  (fit_denominator this) (eqb_zero_null _ H)) as [Hv|Hu];
        fold (fit_slope this) in *.
      * left. now apply void_is_nan.
      * right. now apply unbounded_is_infinity.
    + rewrite __validate_fit, (zero_denominator_rejected this H).
      split; [reflexivity | apply reset_cleared].
  - intros H. apply zero_denominator_rejected in H. split.
    + revert H. by_path this tFrame; intros; try discriminate. congruence.
    + clear H. unfold countCycle.
      by_path this tFrame; intros; try discriminate.
      split; [apply reset_cleared | repeat split].
Qed.

(** * Further properties of the estimator *)

(** [__vso]: the offset of a time [t] from the vsync of a snapshot.  A null
    snapshot and a snapshot whose [ms] is falsy give 0. *)
Definition __vso (t : float) (snap : option Snap) : float :=
  match snap with
  | Some s =>
      if JS.truthy (ms s)
      then JS.rem (JS.rem (t - tvsync s + 2) (ms s) + ms s) (ms s) - 2
      else 0
  | None => 0
  end.

(** The number of [countCycle] calls of a run that find a tight group. *)
Fixpoint tight_groups (this : RefreshRateCalculator) (cs : list Call) : Z :=
  match cs with
  | [] => 0
  | c :: cs' =>
      ((match c with
        | CountCycle t => if tight this t then 1 else 0
        | _ => 0
        end) + tight_groups (call this c) cs')%Z
  end.

(** What holds of the estimate in every reachable state: a non-empty
    diagnostic string comes with a positive interval, a truthy interval with
    more than 30 folded samples, and the change counter stays within 0..20. *)
Definition estimate_invariant (this : RefreshRateCalculator) : Prop :=
  (_m_vi this <> EmptyString -> (0 <? _m_ms this) = true)
  /\ (JS.truthy (_m_ms this) = true -> (31 <= _m_nms this)%Z)
  /\ (0 <= _m_nms this)%Z
  /\ (0 <= _m_nChange this <= 20)%Z.

(** The sign classes of a binary64 value that is not NaN. *)
Definition sf_nonneg (x : spec_float) : Prop :=
  match x with
  | S754_zero _ | S754_finite false _ _ | S754_infinity false => True
  | _ => False
  end.

Definition sf_nonpos (x : spec_float) : Prop :=
  match x with
  | S754_zero _ | S754_finite true _ _ | S754_infinity true => True
  | _ => False
  end.

Definition sf_positive (x : spec_float) : Prop :=
  match x with
  | S754_finite false _ _ | S754_infinity false => True
  | _ => False
  end.

Definition sf_negative (x : spec_float) : Prop :=
  match x with
  | S754_finite true _ _ | S754_infinity true => True
  | _ => False
  end.

(** [p * 2^k], by doubling [k] times: a mantissa shifted left. *)
Definition doubled (k : nat) (p : positive) : positive := Nat.iter k xO p.
(** ** More facts about binary64 values *)

Lemma SFcompare_le_lt_trans (b a x : spec_float) :
  (SFcompare b a = Some Lt \/ SFcompare b a = Some Eq) ->
  SFcompare a x = Some Lt -> SFcompare b x = Some Lt.
Proof.
  destruct b as [sb|sb| |sb mb eb], a as [sa|sa| |sa ma ea], x as [sx|sx| |sx mx ex];
    simpl; intros [H1|H1] H2; try discriminate;
    repeat match goal with s : bool |- _ => destruct s end; simpl in *;
    try discriminate; try reflexivity.
  all: change (Pos.compare_cont Eq) with Pos.compare in *.
  all: repeat match goal with
       | H : context [(?u ?= ?v)%Z] |- _ => destruct (Z.compare_spec u v); subst
       | |- context [(?u ?= ?v)%Z] => destruct (Z.compare_spec u v); subst
       end; try discriminate; try reflexivity; try lia.
  all: repeat match goal with
       | H : Some (CompOpp _) = Some _ |- _ => injection H as H
       | H : Some _ = Some _ |- _ => injection H as H
       end.
  all: repeat match goal with
       | H : context [(?u ?= ?v)%positive] |- _ =>
           destruct (Pos.compare_spec u v); subst; simpl in H
       | |- context [(?u ?= ?v)%positive] => destruct (Pos.compare_spec u v); subst; simpl
       end; try discriminate; try reflexivity; try lia.
Qed.

Lemma ltb_leb_trans_false (a x b : float) :
  (a <? x) = true -> (b <=? a) = true -> (x <? b) = false.
Proof.
  rewrite !ltb_spec, leb_spec. unfold SFltb, SFleb. intros H1 H2.
  destruct (SFcompare (Prim2SF a) (Prim2SF x)) as [[]|] eqn:E1; try discriminate.
  destruct (SFcompare (Prim2SF b) (Prim2SF a)) as [[]|] eqn:E2; try discriminate.
  - rewrite (SFcompare_swap _ _ _ (SFcompare_le_lt_trans _ _ _ (or_intror E2) E1)).
    reflexivity.
  - rewrite (SFcompare_swap _ _ _ (SFcompare_le_lt_trans _ _ _ (or_introl E2) E1)).
    reflexivity.
Qed.

Lemma max2_30_not_below (x b : float) :
  (b <=? 30) = true -> (JS.max2 30 x <? b) = false.
Proof.
  intros Hb. unfold JS.max2. change (is_nan 30) with false. simpl orb.
  destruct (is_nan x) eqn:Hn.
  - apply ltb_void_l. reflexivity.
  - destruct (30 <? x) eqn:H1; [now apply (ltb_leb_trans_false 30)|].
    destruct (x <? 30); change (get_sign 30) with false; cbv iota;
      now apply ltb_false_of_leb.
Qed.

Lemma ofZ_small (k : Z) : (0 <= k <= 30)%Z -> (JS.ofZ k <=? 30) = true.
Proof.
  intros H. replace k with (Z.of_nat (Z.to_nat k)) by lia.
  assert (Hn : (Z.to_nat k <= 30)%nat) by lia. revert Hn. generalize (Z.to_nat k).
  intros n Hn. do 31 (destruct n as [|n]; [vm_compute; reflexivity|]). lia.
Qed.

Lemma priming_needs_31 (g : float) (n : Z) :
  (0 <= n)%Z -> (JS.max2 30 g <? JS.ofZ n) = true -> (31 <= n)%Z.
Proof.
  intros H0 H. destruct (Z.le_gt_cases 31 n) as [|Hs]; [assumption|].
  rewrite (max2_30_not_below g (JS.ofZ n)) in H; [discriminate|].
  apply ofZ_small. lia.
Qed.

Lemma half_null (x : float) : is_null x -> is_null (x / 2).
Proof.
  intros [s H]. unfold is_null. rewrite div_spec, H.
  change (Prim2SF 2) with (S754_finite false 4503599627370496 (-51)).
  simpl. eauto.
Qed.

Lemma null_is_zero (x : float) : is_null x -> is_zero x = true.
Proof.
  intros [s H]. unfold is_zero. rewrite eqb_spec, H. reflexivity.
Qed.

Lemma rem_null_divisor (n d : float) : is_null d -> JS.rem n d = nan.
Proof.
  intros H. unfold JS.rem. rewrite (null_is_zero d H), !orb_true_r. reflexivity.
Qed.

Lemma void_not_null (x : float) : is_void x -> is_null x -> False.
Proof. intros H [s H']. unfold is_void in H. congruence. Qed.

(** An accepted fit has a slope that is neither zero nor NaN. *)
Lemma accepted_slope_truthy (this : RefreshRateCalculator) :
  fit_accepted this = true -> JS.truthy (fit_slope this) = true.
Proof.
  intros Ha. unfold JS.truthy.
  destruct (is_nan (fit_slope this)) eqn:Hn.
  { exfalso. unfold fit_accepted in Ha.
    rewrite ltb_void_r in Ha; [discriminate|].
    apply half_void, Prim2SF_nan, Hn. }
  destruct (is_zero (fit_slope this)) eqn:Hz; [|reflexivity].
  exfalso. apply eqb_zero_null in Hz.
  destruct (le_lt_dec (length (_m_D this)) 1) as [Hs|Hl].
  { exact (void_not_null _ (small_store_void_slope this Hs) Hz). }
  unfold fit_accepted in Ha. rewrite ltb_void_l in Ha; [discriminate|].
  apply sub_void_r. unfold fit_min.
  destruct (length (_m_D this)) as [|[|k]]; try lia.
  simpl Nat.sub. simpl seq. simpl fold_left.
  assert (Ho : is_void (fit_offset this 1)).
  { unfold fit_offset. rewrite (rem_null_divisor _ _ Hz). apply sub_void_l, nan_void. }
  rewrite (min2_void_r 0 _ Ho), fold_min2_nan. apply nan_void.
Qed.

(** ** Signs through the drift check *)

Lemma sf_sign_cases (x : spec_float) :
  x = S754_nan \/ sf_nonneg x \/ sf_negative x.
Proof. destruct x as [s|s| |s m e]; try destruct s; simpl; auto. Qed.

Lemma sf_sign_cases' (x : spec_float) :
  x = S754_nan \/ sf_nonpos x \/ sf_positive x.
Proof. destruct x as [s|s| |s m e]; try destruct s; simpl; auto. Qed.

Lemma not_nan_Prim2SF (x : float) : is_nan x = false -> Prim2SF x <> S754_nan.
Proof.
  unfold is_nan. rewrite eqb_spec. intros H E. rewrite E in H. discriminate.
Qed.

Lemma ltb_negative_nonneg (x a : float) :
  sf_negative (Prim2SF x) -> sf_nonneg (Prim2SF a) ->
  (x <? a) = true /\ (a <? x) = false.
Proof.
  rewrite !ltb_spec. unfold SFltb.
  destruct (Prim2SF x) as [s|s| |s m e], (Prim2SF a) as [s'|s'| |s' m' e'];
    try destruct s; try destruct s'; simpl; intros H1 H2; try contradiction; auto.
Qed.

Lemma ltb_nonpos_positive (x a : float) :
  sf_positive (Prim2SF x) -> sf_nonpos (Prim2SF a) ->
  (a <? x) = true /\ (x <? a) = false.
Proof.
  rewrite !ltb_spec. unfold SFltb.
  destruct (Prim2SF x) as [s|s| |s m e], (Prim2SF a) as [s'|s'| |s' m' e'];
    try destruct s; try destruct s'; simpl; intros H1 H2; try contradiction; auto.
Qed.

Lemma max2_nonneg (a x : float) :
  sf_nonneg (Prim2SF a) ->
  is_nan (JS.max2 a x) = true \/ sf_nonneg (Prim2SF (JS.max2 a x)).
Proof.
  intros Ha. unfold JS.max2.
  destruct (is_nan a || is_nan x) eqn:Hn; [now left|]. right.
  apply orb_false_iff in Hn. destruct Hn as [_ Hx]. apply not_nan_Prim2SF in Hx.
  destruct (sf_sign_cases (Prim2SF x)) as [E|[Hp|Hneg]]; [contradiction| |].
  - destruct (a <? x); [exact Hp|]. destruct (x <? a); [exact Ha|].
    destruct (get_sign a); assumption.
  - destruct (ltb_negative_nonneg x a Hneg Ha) as [-> ->]. exact Ha.
Qed.

Lemma min2_nonpos (a x : float) :
  sf_nonpos (Prim2SF a) ->
  is_nan (JS.min2 a x) = true \/ sf_nonpos (Prim2SF (JS.min2 a x)).
Proof.
  intros Ha. unfold JS.min2.
  destruct (is_nan a || is_nan x) eqn:Hn; [now left|]. right.
  apply orb_false_iff in Hn. destruct Hn as [_ Hx]. apply not_nan_Prim2SF in Hx.
  destruct (sf_sign_cases' (Prim2SF x)) as [E|[Hp|Hpos]]; [contradiction| |].
  - destruct (a <? x); [exact Ha|]. destruct (x <? a); [exact Hp|].
    destruct (get_sign a); assumption.
  - destruct (ltb_nonpos_positive x a Hpos Ha) as [-> _]. exact Ha.
Qed.

Lemma max2_nan_l (x : float) : JS.max2 nan x = nan.
Proof. reflexivity. Qed.

Lemma fold_max2_nan (g : nat -> float) (l : list nat) :
  fold_left (fun a i => JS.max2 a (g i)) l nan = nan.
Proof. induction l as [|i l IH]; simpl; [reflexivity|]. exact IH. Qed.

Lemma is_nan_eq (x : float) : is_nan x = true -> x = nan.
Proof. intros H. apply void_eq_nan, Prim2SF_nan, H. Qed.

Lemma fold_max2_nonneg (g : nat -> float) (l : list nat) (a : float) :
  sf_nonneg (Prim2SF a) ->
  let r := fold_left (fun a i => JS.max2 a (g i)) l a in
  is_nan r = true \/ sf_nonneg (Prim2SF r).
Proof.
  revert a. induction l as [|i l IH]; intros a Ha; simpl; [now right|].
  destruct (max2_nonneg a (g i) Ha) as [Hn|Hp].
  - left. rewrite (is_nan_eq _ Hn), fold_max2_nan. reflexivity.
  - now apply IH.
Qed.

Lemma fold_min2_nonpos (g : nat -> float) (l : list nat) (a : float) :
  sf_nonpos (Prim2SF a) ->
  let r := fold_left (fun a i => JS.min2 a (g i)) l a in
  is_nan r = true \/ sf_nonpos (Prim2SF r).
Proof.
  revert a. induction l as [|i l IH]; intros a Ha; simpl; [now right|].
  destruct (min2_nonpos a (g i) Ha) as [Hn|Hp].
  - left. rewrite (is_nan_eq _ Hn), fold_min2_nan. reflexivity.
  - now apply IH.
Qed.

(** Rounding keeps the sign it is given. *)
Lemma binary_round_aux_sign (s : bool) (m e : Z) (l : location) :
  match binary_round_aux prec emax s m e l with
  | S754_nan => True
  | S754_zero s' | S754_infinity s' | S754_finite s' _ _ => s' = s
  end.
Proof.
  unfold binary_round_aux.
  destruct (shr_fexp prec emax m e l) as [mrs' e'].
  destruct (shr_fexp prec emax _ e' loc_Exact) as [mrs'' e''].
  destruct (shr_m mrs''); [reflexivity| |exact I].
  destruct (e'' <=? emax - prec)%Z; reflexivity.
Qed.

Lemma binary_round_sign (s : bool) (m : positive) (e : Z) :
  match binary_round prec emax s m e with
  | S754_nan => True
  | S754_zero s' | S754_infinity s' | S754_finite s' _ _ => s' = s
  end.
Proof.
  unfold binary_round. destruct (shl_align m e _) as [mz ez].
  apply binary_round_aux_sign.
Qed.

(** A non-negative value minus a non-positive one is non-negative or NaN. *)
Lemma sub_nonneg_nonpos (x y : float) :
  sf_nonneg (Prim2SF x) -> sf_nonpos (Prim2SF y) ->
  is_void (x - y) \/ sf_nonneg (Prim2SF (x - y)).
Proof.
  unfold is_void. rewrite sub_spec.
  destruct (Prim2SF x) as [s|s| |s m e], (Prim2SF y) as [s'|s'| |s' m' e'];
    try destruct s; try destruct s'; simpl; intros H1 H2; try contradiction; auto.
  match goal with |- context [binary_round _ _ false ?p ?ez] =>
    pose proof (binary_round_sign false p ez) as B;
    destruct (binary_round prec emax false p ez) as [b|b| |b bm be] end;
    subst; simpl; auto.
Qed.

Lemma leb_zero_nonneg (x : float) : (0 <=? x) = true <-> sf_nonneg (Prim2SF x).
Proof.
  rewrite leb_spec. change (Prim2SF 0) with (S754_zero false). unfold SFleb.
  destruct (Prim2SF x) as [s|s| |s m e]; try destruct s; simpl;
    split; intros H; try discriminate; try contradiction; auto.
Qed.

Lemma ltb_zero_positive (x : float) : (0 <? x) = true <-> sf_positive (Prim2SF x).
Proof.
  rewrite ltb_spec. change (Prim2SF 0) with (S754_zero false). unfold SFltb.
  destruct (Prim2SF x) as [s|s| |s m e]; try destruct s; simpl;
    split; intros H; try discriminate; try contradiction; auto.
Qed.

(** Above a non-negative value there are only positive ones. *)
Lemma ltb_above_nonneg (d h : float) :
  sf_nonneg (Prim2SF d) -> (d <? h) = true -> sf_positive (Prim2SF h).
Proof.
  rewrite ltb_spec. unfold SFltb.
  destruct (Prim2SF d) as [s|s| |s m e], (Prim2SF h) as [s'|s'| |s' m' e'];
    try destruct s; try destruct s'; simpl; intros H1 H2;
    try contradiction; try discriminate; auto.
Qed.

(** Halving keeps the sign. *)
Lemma half_positive (x : float) : sf_positive (Prim2SF (x / 2)) -> sf_positive (Prim2SF x).
Proof.
  rewrite div_spec. change (Prim2SF 2) with (S754_finite false 4503599627370496 (-51)).
  destruct (Prim2SF x) as [s|s| |s m e]; try destruct s; simpl; auto.
  unfold SF64div, SFdiv.
  destruct (SFdiv_core_binary prec emax (Z.pos m) e 4503599627370496 (-51)) as [[mz ez] lz].
  pose proof (binary_round_aux_sign true mz ez lz) as B.
  destruct (binary_round_aux prec emax true mz ez lz) as [b|b| |b bm be];
    simpl in B; subst; simpl; auto.
Qed.

Lemma accepted_slope_positive (this : RefreshRateCalculator) :
  fit_accepted this = true -> (0 <? fit_slope this) = true.
Proof.
  intros Ha. unfold fit_accepted in Ha.
  apply ltb_zero_positive, half_positive. fold (fit_halfMs this).
  assert (H0 : sf_nonneg (Prim2SF 0)) by exact I.
  assert (H0' : sf_nonpos (Prim2SF 0)) by exact I.
  destruct (fold_max2_nonneg (fit_offset this) (seq 1 (length (_m_D this) - 1)) 0 H0)
    as [Hx|Hx]; fold (fit_max this) in Hx.
  { rewrite ltb_void_l in Ha; [discriminate|]. apply sub_void_l, Prim2SF_nan, Hx. }
  destruct (fold_min2_nonpos (fit_offset this) (seq 1 (length (_m_D this) - 1)) 0 H0')
    as [Hn|Hn]; fold (fit_min this) in Hn.
  { rewrite ltb_void_l in Ha; [discriminate|]. apply sub_void_r, Prim2SF_nan, Hn. }
  destruct (sub_nonneg_nonpos _ _ Hx Hn) as [Hv|Hd].
  { rewrite ltb_void_l in Ha; [discriminate | exact Hv]. }
  exact (ltb_above_nonneg _ _ Hd Ha).
Qed.

Lemma positive_truthy (x : float) : (0 <? x) = true -> JS.truthy x = true.
Proof.
  intros H. apply ltb_zero_positive in H. unfold JS.truthy, is_nan, is_zero.
  rewrite !eqb_spec. change (Prim2SF 0) with (S754_zero false). unfold SFeqb.
  destruct (Prim2SF x) as [s|s| |s m e]; try destruct s; try contradiction; simpl.
  - reflexivity.
  - rewrite Z.compare_refl, Pos.compare_cont_refl. reflexivity.
Qed.

(** ** The startup skip *)

Lemma same_statistics_refl (s : RefreshRateCalculator) : same_statistics s s.
Proof. unfold same_statistics. repeat split. Qed.

Lemma same_statistics_trans (a b c : RefreshRateCalculator) :
  same_statistics a b -> same_statistics b c -> same_statistics a c.
Proof. unfold same_statistics. intuition congruence. Qed.

(** Every tight group takes one off the startup counter, whatever else the
    call does; a loose window leaves it. *)
Lemma startup_counter_step (this : RefreshRateCalculator) (tFrame : float) :
  _nJavaScriptSkip (__add this tFrame)
  = (_nJavaScriptSkip this - (if tight this tFrame then 1 else 0))%Z.
Proof.
  destruct (store_frame (tracked this tFrame)) as (_ & _ & _ & _ & _ & _ & _ & _ & SJ & _).
  destruct (tracked_frame this tFrame) as (_ & _ & _ & _ & _ & TJ & _).
  by_path this tFrame; intros;
    repeat match goal with H : tight this tFrame = _ |- _ => rewrite H end;
    fields; rewrite ?SJ, ?TJ; lia.
Qed.

(** While the startup counter lasts, a call only shifts the window, counts
    the cycle and, on a tight group, counts the startup counter down. *)
Lemma startup_call (this : RefreshRateCalculator) (tFrame : float) :
  ((if tight this tFrame then 1 else 0) <= _nJavaScriptSkip this)%Z ->
  same_statistics this (__add this tFrame)
  /\ _nSkip (__add this tFrame) = _nSkip this
  /\ (path this tFrame = Loose \/ path this tFrame = Skipped).
Proof.
  intros H. by_path this tFrame; intros;
    repeat match goal with E : tight this tFrame = _ |- _ => rewrite E in H end;
    try lia; unfold same_statistics; fields; repeat split; auto.
Qed.

Lemma startup_absorbs (ts : list float) (this : RefreshRateCalculator) :
  (tight_calls this ts <= _nJavaScriptSkip this)%Z ->
  same_statistics this (cycles this ts)
  /\ _nSkip (cycles this ts) = _nSkip this
  /\ _nJavaScriptSkip (cycles this ts) = (_nJavaScriptSkip this - tight_calls this ts)%Z.
Proof.
  revert this. induction ts as [|t ts IH]; intros this H; simpl in *.
  - split; [apply same_statistics_refl|]. split; [reflexivity | lia].
  - pose proof (tight_calls_nonneg ts (__add this t)) as H0.
    pose proof (startup_counter_step this t) as J.
    destruct (startup_call this t) as (S1 & K1 & _); [destruct (tight this t); lia|].
    destruct (IH (__add this t)) as (S2 & K2 & J2); [lia|].
    unfold cycles in *. split; [eapply same_statistics_trans; eassumption|].
    split; [congruence | lia].
Qed.

Lemma tight_groups_nonneg (cs : list Call) (this : RefreshRateCalculator) :
  (0 <= tight_groups this cs)%Z.
Proof.
  revert this. induction cs as [|c cs IH]; intros this; simpl; [lia|].
  specialize (IH (call this c)). destruct c as [t|n|]; [destruct (tight this t)| |]; lia.
Qed.

Lemma startup_counter_run (cs : list Call) (this : RefreshRateCalculator) :
  _nJavaScriptSkip (run this cs) = (_nJavaScriptSkip this - tight_groups this cs)%Z.
Proof.
  revert this. induction cs as [|c cs IH]; intros this; simpl; [lia|].
  change (fold_left call cs (call this c)) with (run (call this c) cs).
  rewrite IH. destruct c as [t|n|]; simpl call.
  - unfold countCycle. rewrite startup_counter_step. lia.
  - unfold ignoreNextCycle. fields. lia.
  - unfold restartMeasuring. fields. lia.
Qed.

(** ** The tunables *)

Lemma same_tunables_refl (s : RefreshRateCalculator) : same_tunables s s.
Proof. unfold same_tunables. repeat split. Qed.

Lemma tunables_add (this : RefreshRateCalculator) (tFrame : float) :
  same_tunables this (__add this tFrame).
Proof.
  destruct (store_frame (tracked this tFrame)) as ((S1 & S2 & S3 & S4 & S5) & _).
  destruct (tracked_frame this tFrame) as ((T1 & T2 & T3 & T4 & T5) & _).
  by_path this tFrame; intros; unfold same_tunables; fields;
    rewrite ?S1, ?S2, ?S3, ?S4, ?S5, ?T1, ?T2, ?T3, ?T4, ?T5; repeat split.
Qed.

Lemma tunables_run (cs : list Call) (this : RefreshRateCalculator) :
  same_tunables this (run this cs).
Proof.
  revert this. induction cs as [|c cs IH]; intros this; simpl; [apply same_tunables_refl|].
  eapply same_tunables_trans; [|apply IH].
  destruct c as [t|n|]; simpl call.
  - apply tunables_add.
  - unfold ignoreNextCycle, same_tunables. fields. repeat split.
  - unfold restartMeasuring, same_tunables. fields. repeat split.
Qed.

(** ** The store, call by call *)

Lemma store_effect (this : RefreshRateCalculator) (tFrame : float) :
  length (_m_D this) = length (_m_S this) ->
  let full := (_MAXSTORE this <=? Z.of_nat (length (_m_D this)))%Z in
  match path this tFrame with
  | Loose | Skipped | Inactive =>
      _m_D (__add this tFrame) = _m_D this /\ _m_S (__add this tFrame) = _m_S this
  | HzReset | DriftReset =>
      _m_D (__add this tFrame) = [] /\ _m_S (__add this tFrame) = []
  | Stored | Validated =>
      _m_D (__add this tFrame)
      = (if full then __cut (_m_D this) else _m_D this) ++ [_L3 this]
      /\ _m_S (__add this tFrame)
         = (if full then __cut (_m_S this) else _m_S this)
           ++ [(_L1 this + _L2 this + _L3 this + _L4 this + tFrame) / 5]
  end.
Proof.
  intros Hlen full.
  destruct (tracked_frame this tFrame)
    as ((_ & _ & _ & EM & _) & TD & TS & _ & _ & _ & L0 & L1 & L2 & L3 & L4).
  assert (Hlen' : length (_m_D (tracked this tFrame)) = length (_m_S (tracked this tFrame)))
    by congruence.
  destruct (store_sample (tracked this tFrame) Hlen') as (ED & ES & _).
  cbv zeta in ED, ES. rewrite EM, TD in ED, ES.
  rewrite L2, <- __cut_evens in ED. rewrite TS, L0, L1, L2, L3, L4, <- __cut_evens in ES.
  fold full in ED, ES.
  by_path this tFrame; intros; fields; try (split; reflexivity); split; assumption.
Qed.

(** ** The invariant of the estimate *)

Lemma track_estimate (s : RefreshRateCalculator) (av g : float) :
  (0 <= _m_nms s)%Z ->
  (0 <= _m_nChange s)%Z ->
  (JS.truthy (_m_ms s) = true -> (31 <= _m_nms s)%Z) ->
  (0 <= _m_nms (track s av g))%Z
  /\ (0 <= _m_nChange (track s av g))%Z
  /\ (JS.truthy (_m_ms (track s av g)) = true -> (31 <= _m_nms (track s av g))%Z)
  /\ (JS.truthy (_m_ms s) = true -> _m_ms (track s av g) = _m_ms s).
Proof.
  intros Hn Hc Hm. unfold track. destruct (bHzChanged s av); simpl negb; cbv iota.
  - fields. repeat split; auto; lia.
  - cbv zeta. fields.
    destruct (JS.truthy (_m_ms s)) eqn:Ht; simpl negb; simpl andb; cbv iota.
    + fields. specialize (Hm eq_refl). repeat split; auto; lia.
    + destruct (JS.max2 30 (g * 60) <? JS.ofZ (_m_nms s + 1)) eqn:Hp; fields.
      * apply priming_needs_31 in Hp; [|lia].
        repeat split; try lia; try discriminate; auto.
      * rewrite Ht. repeat split; try lia; try discriminate; auto.
Qed.

Lemma estimate_invariant_reset (s : RefreshRateCalculator) :
  estimate_invariant (__reset s).
Proof.
  unfold estimate_invariant. fields.
  repeat split; try lia; try discriminate. intros H. now contradiction H.
Qed.

Lemma estimate_invariant_add (this : RefreshRateCalculator) (tFrame : float) :
  estimate_invariant this -> estimate_invariant (__add this tFrame).
Proof.
  intros (V & M & N & C).
  destruct (track_estimate (gated this tFrame) (avems (shift this tFrame))
              (grouping (shift this tFrame)))
    as (TN & TC & TM & TK); [exact N | exact (proj1 C) | exact M |].
  fold (tracked this tFrame) in TN, TC, TM, TK. fields.
  destruct (track_frame (gated this tFrame) (avems (shift this tFrame))
              (grouping (shift this tFrame)))
    as (_ & _ & _ & _ & _ & _ & _ & TV & _).
  fold (tracked this tFrame) in TV. fields.
  destruct (store_frame (tracked this tFrame))
    as (_ & SC & _ & SN & SM & SV & _).
  by_path this tFrame; intros; try apply estimate_invariant_reset;
    unfold estimate_invariant; fields.
  - repeat split; auto; lia.
  - repeat split; auto; lia.
  - repeat split; auto; lia.
  - repeat split; auto; lia.
  - rewrite SV, SM, SN, SC, TV. repeat split; auto; try lia.
    intros Hv. rewrite (TK (positive_truthy _ (V Hv))). exact (V Hv).
  - rewrite SN, SC. repeat split; auto; try lia.
    + intros _. now apply accepted_slope_positive.
    + intros _. apply TM. rewrite <- SM.
      match goal with H : due _ _ = true |- _ =>
        unfold due in H; apply andb_true_iff in H; exact (proj1 H) end.
Qed.

Lemma estimate_invariant_run (cs : list Call) (this : RefreshRateCalculator) :
  estimate_invariant this -> estimate_invariant (run this cs).
Proof.
  revert this. induction cs as [|c cs IH]; intros this I; simpl; [exact I|].
  apply IH. destruct c as [t|n|]; simpl call.
  - now apply estimate_invariant_add.
  - exact I.
  - apply estimate_invariant_reset.
Qed.

Lemma estimate_invariant_reachable (this : RefreshRateCalculator) :
  reachable this -> estimate_invariant this.
Proof.
  intros [cs ->]. apply estimate_invariant_run. apply (estimate_invariant_reset constructor).
Qed.

(** ** Counting down in binary64

    The counters are embedded as integers.  The lemmas below show what that
    rests on for the skip counter, which line 171 decrements as a Number: on
    the integers from 0 to 2^53 the decrement of binary64 is the decrement of
    the integers, and the test against 0 agrees. *)


Lemma iter_pos_nat {A : Type} (f : A -> A) (n : positive) :
  forall x, iter_pos f n x = Nat.iter (Pos.to_nat n) f x.
Proof.
  induction n as [n IH|n IH|]; intros x; simpl iter_pos.
  - rewrite !IH, Pos2Nat.inj_xI. simpl Nat.iter.
    rewrite <- Nat.iter_succ_r. simpl Nat.iter. f_equal.
    replace (Pos.to_nat n + (Pos.to_nat n + 0))%nat with (Pos.to_nat n + Pos.to_nat n)%nat by lia.
    rewrite Nat.iter_add. rewrite <- !Nat.iter_succ_r. simpl. reflexivity.
  - rewrite !IH, Pos2Nat.inj_xO.
    replace (2 * Pos.to_nat n)%nat with (Pos.to_nat n + Pos.to_nat n)%nat by lia.
    now rewrite Nat.iter_add.
  - reflexivity.
Qed.

Lemma doubled_value (k : nat) (p : positive) :
  Zpos (doubled k p) = (Zpos p * 2 ^ Z.of_nat k)%Z.
Proof.
  induction k as [|k IH]; [simpl; lia|].
  unfold doubled in *. rewrite Nat.iter_succ, Pos2Z.inj_xO, IH, Nat2Z.inj_succ, Z.pow_succ_r; lia.
Qed.

Lemma doubled_add (j k : nat) (p : positive) : doubled j (doubled k p) = doubled (j + k) p.
Proof. unfold doubled. now rewrite Nat.iter_add. Qed.

Lemma doubled_pos_iter (q : positive) (p : positive) :
  Pos.iter xO p q = doubled (Pos.to_nat q) p.
Proof. unfold doubled. apply Pos2Nat.inj_iter. Qed.

Lemma digits_doubled (k : nat) (p : positive) :
  Zpos (digits2_pos (doubled k p)) = (Zpos (digits2_pos p) + Z.of_nat k)%Z.
Proof.
  induction k as [|k IH]; [simpl; lia|].
  unfold doubled in *. rewrite Nat.iter_succ. simpl digits2_pos.
  rewrite Pos2Z.inj_succ, IH. lia.
Qed.

Lemma digits_size (p : positive) : digits2_pos p = Pos.size p.
Proof. induction p; simpl; congruence. Qed.

Lemma digits_bound (p : positive) (n : Z) :
  (0 <= n)%Z -> (Zpos p < 2 ^ n)%Z -> (Zpos (digits2_pos p) <= n)%Z.
Proof.
  intros Hn H. rewrite digits_size.
  pose proof (Pos.size_le p) as L.
  destruct (Z.le_gt_cases (Zpos (Pos.size p)) n) as [|G]; [assumption|exfalso].
  assert (2 ^ (n + 1) <= 2 ^ Zpos (Pos.size p))%Z by (apply Z.pow_le_mono_r; lia).
  assert (Zpos (2 ^ Pos.size p) <= Zpos p~0)%Z by (apply Pos2Z.pos_le_pos, L).
  rewrite Pos2Z.inj_pow in *. rewrite Z.pow_add_r in * by lia. lia.
Qed.

(** Halving a mantissa that ends in [k] zeros loses nothing. *)
Lemma shr_doubled (k : nat) (p : positive) :
  Nat.iter k shr_1 {| shr_m := Zpos (doubled k p); shr_r := false; shr_s := false |}
  = {| shr_m := Zpos p; shr_r := false; shr_s := false |}.
Proof.
  revert p. induction k as [|k IH]; intros p; [reflexivity|].
  rewrite Nat.iter_succ_r. unfold doubled. rewrite Nat.iter_succ. simpl shr_1.
  apply IH.
Qed.

(** A mantissa of 53 digits with an exponent in range is left as it is, by
    the second shift of the rounding and so by both. *)
Lemma round_tail_canonical (s : bool) (m : positive) (e : Z) :
  Zpos (digits2_pos m) = 53%Z -> (-1074 <= e <= 971)%Z ->
  (let '(mrs, e') := shr_fexp prec emax (Zpos m) e loc_Exact in
   match shr_m mrs with
   | Z0 => S754_zero s
   | Zpos m' => if (e' <=? emax - prec)%Z then S754_finite s m' e' else S754_infinity s
   | Zneg _ => S754_nan
   end) = S754_finite s m e.
Proof.
  intros D E.
  assert (F : (fexp prec emax (53 + e) - e)%Z = 0%Z)
    by (unfold fexp, emin, prec, emax; lia).
  unfold shr_fexp.
  change (Zdigits2 (Zpos m)) with (Zpos (digits2_pos m)). rewrite D, F.
  cbn [shr shr_record_of_loc shr_m].
  unfold emax, prec. destruct (Z.leb_spec e (1024 - 53)); [reflexivity | lia].
Qed.

Lemma binary_round_aux_canonical (s : bool) (m : positive) (e : Z) :
  Zpos (digits2_pos m) = 53%Z -> (-1074 <= e <= 971)%Z ->
  binary_round_aux prec emax s (Zpos m) e loc_Exact = S754_finite s m e.
Proof.
  intros D E.
  assert (F : (fexp prec emax (53 + e) - e)%Z = 0%Z)
    by (unfold fexp, emin, prec, emax; lia).
  unfold binary_round_aux. unfold shr_fexp at 1.
  change (Zdigits2 (Zpos m)) with (Zpos (digits2_pos m)). rewrite D, F.
  cbn [shr shr_record_of_loc shr_m loc_of_shr_record round_nearest_even].
  now apply round_tail_canonical.
Qed.

(** The integer [p * 2^j * 2^-j] rounds to itself when [p] has at most 53
    digits: the mantissa is [p] shifted to 53 digits. *)
Lemma binary_round_integer (s : bool) (p : positive) (j : nat) :
  let d := Zpos (digits2_pos p) in
  (d <= 53)%Z -> (Z.of_nat j <= 1000)%Z ->
  binary_round prec emax s (doubled j p) (- Z.of_nat j)
  = S754_finite s (doubled (Z.to_nat (53 - d)) p) (d - 53).
Proof.
  intros d Hd Hj. assert (Hd1 : (1 <= d)%Z) by (unfold d; lia).
  assert (F : fexp prec emax (d + Z.of_nat j + - Z.of_nat j) = (d - 53)%Z)
    by (unfold fexp, emin, prec, emax; lia).
  unfold binary_round, shl_align. rewrite digits_doubled. fold d. rewrite F.
  destruct (d - 53 - - Z.of_nat j)%Z as [|q|q] eqn:Q.
  - assert (J : j = Z.to_nat (53 - d)) by lia.
    replace (- Z.of_nat j)%Z with (d - 53)%Z by lia. rewrite <- J.
    apply binary_round_aux_canonical; [rewrite digits_doubled; fold d; lia | lia].
  - unfold binary_round_aux, shr_fexp.
    change (Zdigits2 (Zpos (doubled j p))) with (Zpos (digits2_pos (doubled j p))).
    rewrite digits_doubled. fold d. rewrite F, Q.
    assert (Hs : iter_pos shr_1 q
                   {| shr_m := Zpos (doubled j p); shr_r := false; shr_s := false |}
                 = {| shr_m := Zpos (doubled (Z.to_nat (53 - d)) p);
                      shr_r := false; shr_s := false |}).
    { rewrite iter_pos_nat.
      replace j with (Pos.to_nat q + Z.to_nat (53 - d))%nat by lia.
      rewrite <- doubled_add. apply shr_doubled. }
    cbn [shr_record_of_loc shr]. rewrite Hs.
    replace (- Z.of_nat j + Zpos q)%Z with (d - 53)%Z by lia.
    cbn [loc_of_shr_record round_nearest_even shr_m].
    apply (round_tail_canonical s); [rewrite digits_doubled; fold d; lia | lia].
  - rewrite doubled_pos_iter, doubled_add.
    replace (Pos.to_nat q + j)%nat with (Z.to_nat (53 - d)) by lia.
    apply binary_round_aux_canonical; [rewrite digits_doubled; fold d; lia | lia].
Qed.

(** The binary64 value of an integer of at most 53 digits, of either sign. *)
Lemma ofZ_canonical (sg : bool) (p : positive) :
  let d := Zpos (digits2_pos p) in
  (d <= 53)%Z ->
  Prim2SF (JS.ofZ (if sg then Zneg p else Zpos p))
  = S754_finite sg (doubled (Z.to_nat (53 - d)) p) (d - 53).
Proof.
  intros d Hd. assert (Hd1 : (1 <= d)%Z) by (unfold d; lia).
  pose proof (binary_round_integer sg p 0 Hd ltac:(simpl; lia)) as R.
  change (doubled 0 p) with p in R. change (- Z.of_nat 0)%Z with 0%Z in R.
  fold d in R.
  assert (E : binary_normalize prec emax (if sg then Zneg p else Zpos p) 0 false
              = S754_finite sg (doubled (Z.to_nat (53 - d)) p) (d - 53))
    by (destruct sg; exact R).
  unfold JS.ofZ. rewrite E.
  apply Prim2SF_SF2Prim. unfold valid_binary, bounded, canonical_mantissa.
  rewrite digits_doubled. fold d.
  replace (fexp prec emax (d + Z.of_nat (Z.to_nat (53 - d)) + (d - 53))) with (d - 53)%Z
    by (unfold fexp, emin, prec, emax; lia).
  rewrite Z.eqb_refl. cbn [andb]. apply Z.leb_le. unfold emax, prec. lia.
Qed.

Lemma digits_of_bound (p : positive) :
  (Zpos (digits2_pos p) <= 53)%Z -> (Zpos p < 2 ^ 53)%Z.
Proof.
  intros Hd. pose proof (Pos.size_gt p) as G. rewrite <- digits_size in G.
  apply Pos2Z.pos_lt_pos in G. rewrite Pos2Z.inj_pow in G.
  assert (2 ^ Zpos (digits2_pos p) <= 2 ^ 53)%Z by (apply Z.pow_le_mono_r; lia). lia.
Qed.

(** The mantissa of an integer of at most 53 digits, aligned with that of 1. *)
Lemma align_with_one (p : positive) :
  let d := Zpos (digits2_pos p) in
  (d <= 53)%Z ->
  fst (shl_align (doubled (Z.to_nat (53 - d)) p) (d - 53) (-52)) = doubled 52 p.
Proof.
  intros d Hd. assert (Hd1 : (1 <= d)%Z) by (unfold d; lia).
  unfold shl_align. destruct (-52 - (d - 53))%Z as [|q|q] eqn:Q; cbn [fst].
  - f_equal. lia.
  - lia.
  - rewrite doubled_pos_iter, doubled_add. f_equal. lia.
Qed.

(** Below 2^53 the decrement of a positive integer is exact. *)
Lemma ofZ_pred_pos (p : positive) :
  (Zpos (digits2_pos p) <= 53)%Z -> JS.ofZ (Zpos p) - 1 = JS.ofZ (Zpos p - 1).
Proof.
  intros Hd. set (d := Zpos (digits2_pos p)) in *.
  assert (Hd1 : (1 <= d)%Z) by (unfold d; lia).
  apply Prim2SF_inj. rewrite sub_spec, (ofZ_canonical false p Hd). fold d.
  change (Prim2SF 1) with (S754_finite false (doubled 52 1) (-52)).
  unfold SF64sub, SFsub.
  replace (Z.min (d - 53) (-52)) with (-52)%Z by lia.
  unfold d. rewrite (align_with_one p Hd).
  change (fst (shl_align (doubled 52 1) (-52) (-52))) with (doubled 52 1).
  cbn [cond_Zopp].
  assert (V : (Zpos (doubled 52 p) - Zpos (doubled 52 1))%Z
              = ((Zpos p - 1) * 2 ^ 52)%Z).
  { rewrite !doubled_value. change (Z.of_nat 52) with 52%Z. lia. }
  rewrite V. destruct (Zpos p - 1)%Z as [|p'|p'] eqn:P; [reflexivity | | lia].
  replace (Zpos p' * 2 ^ 52)%Z with (Zpos (doubled 52 p'))
    by (rewrite doubled_value; reflexivity).
  assert (Hd' : (Zpos (digits2_pos p') <= 53)%Z).
  { apply digits_bound; [lia|]. pose proof (digits_of_bound p Hd). lia. }
  unfold binary_normalize.
  change (-52)%Z with (- Z.of_nat 52)%Z.
  rewrite (binary_round_integer false p' 52 Hd') by (simpl; lia).
  symmetry. apply (ofZ_canonical false p' Hd').
Qed.

(** Above -2^53 + 1 the decrement of a negative integer is exact. *)
Lemma ofZ_pred_neg (p : positive) :
  (Zpos (digits2_pos (p + 1)) <= 53)%Z -> JS.ofZ (Zneg p) - 1 = JS.ofZ (Zneg p - 1).
Proof.
  intros Hd'.
  assert (Hd : (Zpos (digits2_pos p) <= 53)%Z).
  { apply digits_bound; [lia|]. pose proof (digits_of_bound (p + 1) Hd'). lia. }
  set (d := Zpos (digits2_pos p)) in *.
  assert (Hd1 : (1 <= d)%Z) by (unfold d; lia).
  apply Prim2SF_inj. rewrite sub_spec, (ofZ_canonical true p Hd). fold d.
  change (Prim2SF 1) with (S754_finite false (doubled 52 1) (-52)).
  unfold SF64sub, SFsub.
  replace (Z.min (d - 53) (-52)) with (-52)%Z by lia.
  unfold d. rewrite (align_with_one p Hd).
  change (fst (shl_align (doubled 52 1) (-52) (-52))) with (doubled 52 1).
  cbn [cond_Zopp].
  assert (V : (- Zpos (doubled 52 p) - Zpos (doubled 52 1))%Z
              = Zneg (doubled 52 (p + 1))).
  { rewrite <- Pos2Z.opp_pos, !doubled_value. change (Z.of_nat 52) with 52%Z. lia. }
  rewrite V. unfold binary_normalize.
  change (-52)%Z with (- Z.of_nat 52)%Z.
  rewrite (binary_round_integer true (p + 1) 52 Hd') by (simpl; lia).
  replace (Zneg p - 1)%Z with (Zneg (p + 1)) by lia.
  symmetry. apply (ofZ_canonical true (p + 1) Hd').
Qed.

(** On the integers from -2^53 + 1 to 2^53 the decrement of binary64 is the
    decrement of the integers. *)
Lemma ofZ_pred (n : Z) : (- 2 ^ 53 < n <= 2 ^ 53)%Z -> JS.ofZ n - 1 = JS.ofZ (n - 1).
Proof.
  intros H. destruct n as [|p|p]; [reflexivity | | ].
  - destruct (Z.eq_dec (Zpos p) (2 ^ 53)) as [E|E].
    + rewrite E. vm_compute. reflexivity.
    + apply ofZ_pred_pos. apply digits_bound; lia.
  - destruct (Z.eq_dec (Zneg p) (- 2 ^ 53 + 1)) as [E|E].
    + rewrite E. vm_compute. reflexivity.
    + apply ofZ_pred_neg. apply digits_bound; lia.
Qed.

(** On the integers from -2^53 to 2^53 the test against 0 is that of the
    integers. *)
Lemma ofZ_negative (n : Z) : (- 2 ^ 53 <= n <= 2 ^ 53)%Z -> (JS.ofZ n <? 0) = (n <? 0)%Z.
Proof.
  intros H. destruct n as [|p|p].
  - reflexivity.
  - destruct (Z.eq_dec (Zpos p) (2 ^ 53)) as [E|E].
    + rewrite E. vm_compute. reflexivity.
    + rewrite ltb_spec, (ofZ_canonical false) by (apply digits_bound; lia). reflexivity.
  - destruct (Z.eq_dec (Zneg p) (- 2 ^ 53)) as [E|E].
    + rewrite E. vm_compute. reflexivity.
    + rewrite ltb_spec, (ofZ_canonical true) by (apply digits_bound; lia). reflexivity.
Qed.

(** Counting a Number down from an integer [n] of magnitude at most 2^53:
    after [k] decrements it is the Number of [n - k], as long as that is not
    below -2^53. *)
Lemma countdown_exact (n : Z) (k : nat) :
  (- 2 ^ 53 <= n <= 2 ^ 53)%Z -> (- 2 ^ 53 <= n - Z.of_nat k)%Z ->
  Nat.iter k (fun x => x - 1) (JS.ofZ n) = JS.ofZ (n - Z.of_nat k).
Proof.
  intros Hn. induction k as [|k IH]; intros Hk.
  - simpl. f_equal. lia.
  - rewrite Nat.iter_succ, IH by lia. rewrite ofZ_pred by lia. f_equal. lia.
Qed.

(** Beyond 2^53 the decrement is no longer that of the integers: at 2^54 it
    changes nothing. *)
Lemma countdown_stalls : JS.ofZ (2 ^ 54) - 1 = JS.ofZ (2 ^ 54).
Proof. vm_compute. reflexivity. Qed.
(** ** The startup skip and [ignoreNextCycle] *)

(** X1: while a run of [countCycle] calls holds no more tight groups than the
    startup counter [_nJavaScriptSkip] allows (60 on a new instance), the
    calls only shift the window and count: the store, the estimate, the
    running mean and [_nSkip] stay as they were, so both accessors return what
    they returned before, and the startup counter has gone down by the
    number of tight groups. *)
Theorem startup_skip_absorbs (this : RefreshRateCalculator) (ts : list float) :
  (tight_calls this ts <= _nJavaScriptSkip this)%Z ->
  same_statistics this (cycles this ts)
  /\ _nSkip (cycles this ts) = _nSkip this
  /\ _nJavaScriptSkip (cycles this ts) = (_nJavaScriptSkip this - tight_calls this ts)%Z
  /\ getCurrentFrequency (cycles this ts) = getCurrentFrequency this
  /\ getFilteredCycleTimestamp (cycles this ts) = getFilteredCycleTimestamp this.
Proof.
  intros H. destruct (startup_absorbs ts this H) as (S & K & J).
  repeat (split; [assumption|]).
  destruct S as (_ & _ & Ems & Evi & Etv & _).
  unfold getCurrentFrequency, __calc, getFilteredCycleTimestamp, __snap.
  rewrite Ems, Evi, Etv. split; reflexivity.
Qed.

(** X2: the startup counter goes down by one on every tight group, through
    every kind of call and through every reset, and nothing raises it: after a
    run it is the counter of before minus the tight groups of the run. *)
Theorem startup_counter_only_counts_down (this : RefreshRateCalculator) (cs : list Call) :
  _nJavaScriptSkip (run this cs) = (_nJavaScriptSkip this - tight_groups this cs)%Z
  /\ (_nJavaScriptSkip (run this cs) <= _nJavaScriptSkip this)%Z
  /\ (_nJavaScriptSkip (run constructor cs) <= 60)%Z.
Proof.
  pose proof (tight_groups_nonneg cs this) as H0.
  pose proof (tight_groups_nonneg cs constructor) as H1.
  rewrite !startup_counter_run. simpl _nJavaScriptSkip. repeat split; lia.
Qed.

(** X3: [ignoreNextCycle] assigns [_nSkip] (1 when called without argument)
    and nothing else.  The count [n] is a safe integer, and the Number [n]
    counted down in binary64, as line 171 does, is after [k] decrements the
    Number of [n - k] (down to -2^53), and is below 0 when [n - k] is: the
    counter of the code is the integer counter here.  Once the startup skip
    is used up, the count absorbs the next [n] tight groups: the store stays
    as it is while [_nSkip] runs down to 0, and the tight group after those
    gets past the gates.  While the startup counter still covers the tight
    groups of a run, they do not use the count up. *)
Theorem ignore_next_cycle_absorbs (this : RefreshRateCalculator)
  (cycles_arg : option Count) (ts : list float) (tFrame : float) :
  let n := match cycles_arg with Some c => count_value c | None => 1%Z end in
  let ignoring := ignoreNextCycle this cycles_arg in
  _nSkip ignoring = n
  /\ same_statistics this ignoring
  /\ _nJavaScriptSkip ignoring = _nJavaScriptSkip this
  /\ getCount ignoring = getCount this
  /\ (forall k : nat, (- 2 ^ 53 <= n - Z.of_nat k)%Z ->
      Nat.iter k (fun x => x - 1) (JS.ofZ n) = JS.ofZ (n - Z.of_nat k)
      /\ (JS.ofZ (n - Z.of_nat k) <? 0) = (n - Z.of_nat k <? 0)%Z)
  /\ ((_nJavaScriptSkip this <= 0)%Z ->
      (tight_calls ignoring ts <= n)%Z ->
      _m_D (cycles ignoring ts) = _m_D this /\ _m_S (cycles ignoring ts) = _m_S this
      /\ _nSkip (cycles ignoring ts) = (n - tight_calls ignoring ts)%Z
      /\ (tight_calls ignoring ts = n ->
          tight (cycles ignoring ts) tFrame = true ->
          path (cycles ignoring ts) tFrame <> Loose
          /\ path (cycles ignoring ts) tFrame <> Skipped))
  /\ ((tight_calls ignoring ts <= _nJavaScriptSkip this)%Z ->
      _nSkip (cycles ignoring ts) = n).
Proof.
  intros n ignoring.
  assert (Hn : (- 2 ^ 53 <= n <= 2 ^ 53)%Z).
  { unfold n. destruct cycles_arg as [c|]; [|split; discriminate].
    pose proof (count_safe c) as S. apply Z.ltb_lt in S. lia. }
  assert (En : _nSkip ignoring = n) by reflexivity.
  split; [exact En|]. split; [unfold same_statistics; repeat split; reflexivity|].
  split; [reflexivity|]. split; [reflexivity|]. split; [|split].
  - intros k Hk. split; [apply countdown_exact; lia|].
    apply ofZ_negative. lia.
  - intros Hjs Hk.
    destruct (skip_gate_absorbs ts ignoring Hjs) as (D & S & _ & K & J);
      [rewrite En; exact Hk|].
    split; [exact D|]. split; [exact S|]. split; [now rewrite K, En|].
    intros Hall Ht. apply skip_gate_opens; [exact J | rewrite K, En; lia | exact Ht].
  - intros H. destruct (startup_absorbs ts ignoring H) as (_ & K & _).
    now rewrite K.
Qed.

(** ** The store and the tunables *)

(** X4: what one [countCycle] call does to the store, whichever way it takes
    (the two sequences having one length before): a loose window, a skipped
    or a too slow tight group leave both sequences as they are; a reset leaves
    both empty; every other call appends exactly one sample, the timestamp
    that is in the middle of the shifted window and the mean of its five
    timestamps, after halving a full store.  The store never grows by more
    than one. *)
Theorem count_cycle_store_effect (this : RefreshRateCalculator) (tFrame : float) :
  length (_m_D this) = length (_m_S this) ->
  let full := (_MAXSTORE this <=? Z.of_nat (length (_m_D this)))%Z in
  match path this tFrame with
  | Loose | Skipped | Inactive =>
      _m_D (countCycle this tFrame) = _m_D this
      /\ _m_S (countCycle this tFrame) = _m_S this
  | HzReset | DriftReset =>
      _m_D (countCycle this tFrame) = [] /\ _m_S (countCycle this tFrame) = []
  | Stored | Validated =>
      _m_D (countCycle this tFrame)
      = (if full then __cut (_m_D this) else _m_D this) ++ [_L3 this]
      /\ _m_S (countCycle this tFrame)
         = (if full then __cut (_m_S this) else _m_S this)
           ++ [(_L1 this + _L2 this + _L3 this + _L4 this + tFrame) / 5]
  end
  /\ (length (_m_D (countCycle this tFrame)) <= length (_m_D this) + 1)%nat.
Proof.
  intros Hlen full. pose proof (store_effect this tFrame Hlen) as E.
  cbv zeta in E. fold full in E. unfold countCycle. split; [exact E|].
  assert (Hc : (length (__cut (_m_D this)) <= length (_m_D this))%nat).
  { rewrite __cut_evens, evens_length, Nat.div2_div.
    pose proof (Nat.div_mod_eq (S (length (_m_D this))) 2).
    pose proof (Nat.mod_upper_bound (S (length (_m_D this))) 2).
    destruct (_m_D this); simpl length in *; lia. }
  destruct (path this tFrame); destruct E as [-> _]; simpl length;
    try lia; destruct full; rewrite length_app; simpl length; lia.
Qed.

(** X5: in a reachable state [restartMeasuring] gives the state of a new
    instance, except for the startup counter, which keeps the value it had
    come down to. *)
Theorem restart_is_new_but_for_startup (this : RefreshRateCalculator) :
  reachable this ->
  restartMeasuring this = set_nJavaScriptSkip (_nJavaScriptSkip this) constructor
  /\ (_nJavaScriptSkip this <= 60)%Z.
Proof.
  intros R. split.
  - destruct (invariant_reachable this R) as (_ & (T1 & T2 & T3 & T4 & T5) & _).
    unfold restartMeasuring, __reset. rewrite T1, T2, T3, T4, T5. reflexivity.
  - destruct R as [cs ->]. pose proof (tight_groups_nonneg cs constructor) as H.
    rewrite startup_counter_run. simpl _nJavaScriptSkip. lia.
Qed.

(** X6: no call changes a tunable: after any run of calls the validation
    period, the grouping tolerance, the change threshold, the capacity and the
    lowest valid Hz are those of before. *)
Theorem tunables_never_change (this : RefreshRateCalculator) (cs : list Call) :
  same_tunables this (run this cs).
Proof. apply tunables_run. Qed.

(** ** The estimate *)

(** X7: in a reachable state a snapshot that is not null has a positive
    interval, which is the current [_m_ms], so that [getCurrentFrequency]
    is 1000 divided by the interval of the snapshot; and more than 30
    samples have been folded into the running mean since the last reset. *)
Theorem snapshot_has_positive_interval (this : RefreshRateCalculator) (snap : Snap) :
  reachable this ->
  getFilteredCycleTimestamp this = Some snap ->
  (0 <? ms snap) = true
  /\ ms snap = _m_ms this /\ tvsync snap = _m_tvsync this
  /\ getCurrentFrequency this = 1000 / ms snap
  /\ (31 <= _m_nms this)%Z.
Proof.
  intros R. destruct (estimate_invariant_reachable this R) as (V & M & _).
  unfold getFilteredCycleTimestamp, __snap, getCurrentFrequency, __calc.
  destruct (_m_vi this) eqn:E; [discriminate|]. intros H. injection H as <-. simpl.
  assert (P : (0 <? _m_ms this) = true) by (apply V; discriminate).
  rewrite (positive_truthy _ P). repeat split; auto.
  apply M, positive_truthy, P.
Qed.

(** X8: in a reachable state with at most 30 samples folded into the running
    mean since the last reset, the interval is not primed:
    [getCurrentFrequency] returns 0 and the snapshot is null. *)
Theorem unprimed_below_31_samples (this : RefreshRateCalculator) :
  reachable this ->
  (_m_nms this <= 30)%Z ->
  getCurrentFrequency this = 0 /\ getFilteredCycleTimestamp this = None.
Proof.
  intros R H. destruct (estimate_invariant_reachable this R) as (V & M & _).
  assert (T : JS.truthy (_m_ms this) = false).
  { destruct (JS.truthy (_m_ms this)) eqn:E; [|reflexivity]. specialize (M eq_refl). lia. }
  unfold getCurrentFrequency, __calc, getFilteredCycleTimestamp, __snap. rewrite T.
  split; [reflexivity|]. destruct (_m_vi this) eqn:E; [reflexivity|].
  rewrite (positive_truthy _ (V ltac:(discriminate))) in T. discriminate.
Qed.

(** X9: in every reachable state the change counter is between 0 and 20, and
    the sample count of the running mean and the cycle count are not
    negative. *)
Theorem counters_stay_in_range (this : RefreshRateCalculator) :
  reachable this ->
  (0 <= _m_nChange this <= 20)%Z /\ (0 <= _m_nms this)%Z /\ (0 <= getCount this)%Z.
Proof.
  intros R. destruct (estimate_invariant_reachable this R) as (_ & _ & N & C).
  destruct (invariant_reachable this R) as (_ & _ & K & _). auto.
Qed.

(** X10: the validator keeps to its period.  A call whose timestamp is not
    more than [_VALIDATEMS] after [_tUpdate] does not run it; a call that
    runs it and accepts the fit sets [_tUpdate] to its timestamp, so the
    next call does not run it unless its timestamp is more than [_VALIDATEMS]
    later. *)
Theorem validator_keeps_its_period (this : RefreshRateCalculator) (tFrame tNext : float) :
  ((_VALIDATEMS this <? tFrame - _tUpdate this) = false ->
   path this tFrame <> Validated /\ path this tFrame <> DriftReset)
  /\ (path this tFrame = Validated ->
      _tUpdate (countCycle this tFrame) = tFrame
      /\ ((_VALIDATEMS this <? tNext - tFrame) = false ->
          path (countCycle this tFrame) tNext <> Validated
          /\ path (countCycle this tFrame) tNext <> DriftReset)).
Proof.
  assert (G : forall s t, (_VALIDATEMS s <? t - _tUpdate s) = false ->
                path s t <> Validated /\ path s t <> DriftReset).
  { intros s t H.
    destruct (store_frame (tracked s t)) as ((SV & _) & _ & _ & _ & _ & _ & _ & SU & _).
    destruct (track_frame (gated s t) (avems (shift s t)) (grouping (shift s t)))
      as ((TV & _) & _ & _ & _ & _ & _ & _ & _ & _ & TU & _).
    fold (tracked s t) in TV, TU. fields.
    by_path s t; intros; try (split; discriminate);
      match goal with D : due _ _ = true |- _ =>
        unfold due in D; rewrite SV, SU, TV, TU, H, andb_false_r in D; discriminate end. }
  split; [apply G|]. intros P.
  assert (E : _tUpdate (countCycle this tFrame) = tFrame).
  { revert P. by_path this tFrame; intros; try discriminate. reflexivity. }
  split; [exact E|]. intros H. apply G.
  destruct (tunables_add this tFrame) as (V & _). unfold countCycle in *.
  rewrite V, E. exact H.
Qed.

(** ** The offset from vsync *)

(** X11: [__vso] returns 0 for a null snapshot; fed the snapshot of a
    reachable state it never falls back to 0 for want of an interval: it is 0
    when there is no snapshot, and otherwise
    [((t - tvsync + 2) % ms + ms) % ms - 2] with the current [_m_tvsync] and
    [_m_ms]. *)
Theorem vso_of_reachable_snapshot (this : RefreshRateCalculator) (t : float) :
  reachable this ->
  __vso t None = 0
  /\ __vso t (getFilteredCycleTimestamp this)
     = match _m_vi this with
       | EmptyString => 0
       | _ => JS.rem (JS.rem (t - _m_tvsync this + 2) (_m_ms this) + _m_ms this)
                (_m_ms this) - 2
       end.
Proof.
  intros R. split; [reflexivity|].
  destruct (estimate_invariant_reachable this R) as (V & _).
  unfold getFilteredCycleTimestamp, __snap.
  destruct (_m_vi this) eqn:E; [reflexivity|]. simpl.
  rewrite (positive_truthy _ (V ltac:(discriminate))). reflexivity.
Qed.

(** ** The even half of an array *)

(** X12: [__cut] returns half of the elements, rounded up: twice its length
    is the length of the array or one more; an empty array stays empty. *)
Theorem cut_keeps_half (arr : list float) :
  length (__cut arr) = Nat.div2 (S (length arr))
  /\ (length arr <= 2 * length (__cut arr) <= length arr + 1)%nat
  /\ __cut [] = [].
Proof.
  rewrite __cut_evens, evens_length, Nat.div2_div.
  pose proof (Nat.div_mod_eq (S (length arr)) 2).
  pose proof (Nat.mod_upper_bound (S (length arr)) 2).
  repeat split; try lia.
Qed.

End Estimator.

(** * Concrete runs

    The theorems above hold for any [toFixed].  The runs below use the
    decimal expansion with [d] digits of the exact value, rounded half up on
    the magnitude, which is what the built-in returns below 1e21. *)

Local Open Scope float_scope.

Fixpoint zeros (k : nat) : string :=
  match k with O => EmptyString | S k' => String "0"%char (zeros k') end.

Definition digits (n : Z) : string := NilZero.string_of_uint (N.to_uint (Z.to_N n)).

Definition toFixed_js (x : float) (d : Z) : string :=
  let neg := x <? 0 in
  if is_nan x then "NaN"%string
  else if is_infinity x then (if neg then "-Infinity" else "Infinity")%string
  else
    let n := match JS.scaled x with
             | None => 0%Z
             | Some (m, e) =>
                 let a := (Z.abs m * 10 ^ d)%Z in
                 if (0 <=? e)%Z then (a * 2 ^ e)%Z
                 else ((2 * a + 2 ^ (- e)) / 2 ^ (1 - e))%Z
             end in
    let s := digits n in
    let s := (zeros (S (Z.to_nat d) - String.length s) ++ s)%string in
    let k := (String.length s - Z.to_nat d)%nat in
    let frac := (0 <? d)%Z in
    ((if neg then "-" else "") ++ substring 0 k s
     ++ (if frac then "." ++ substring k (Z.to_nat d) s else ""))%string.

(** [n] timestamps from [t] on, [step] apart. *)
Fixpoint ticks (n : nat) (t step : float) : list float :=
  match n with
  | O => []
  | S k => t :: ticks k (t + step) step
  end.

(** 94 frames at 62.5 Hz: the startup skip is used up and 30 samples are
    stored; the next frame, at 2504, primes the interval and runs the
    validator. *)
Definition steady94 : RefreshRateCalculator :=
  cycles toFixed_js constructor (ticks 94 1000 16).

(** 64 frames at 62.5 Hz: the 60 tight groups of the startup skip have
    passed and nothing is stored yet. *)
Definition steady64 : RefreshRateCalculator :=
  cycles toFixed_js constructor (ticks 64 1000 16).

(** 70 frames at 62.5 Hz. *)
Definition steady70 : RefreshRateCalculator :=
  cycles toFixed_js constructor (ticks 70 1000 16).

(** 77 frames 1.125 ms apart, then 17 frames 0.5 ms apart; the next frame is
    at 1095.125. *)
Definition two_rate94 : RefreshRateCalculator :=
  cycles toFixed_js constructor (ticks 77 1000 1.125 ++ ticks 17 1086.625 0.5).

(** 100 frames at 125 Hz, then 24 frames at 62.5 Hz: the change counter
    stands at 20; the next frame is at 2184. *)
Definition halved124 : RefreshRateCalculator :=
  cycles toFixed_js constructor (ticks 100 1000 8 ++ ticks 24 1800 16).

(** 100 frames at 62.5 Hz, then 17 frames at 125 Hz; the next frame is at
    2736. *)
Definition doubled117 : RefreshRateCalculator :=
  cycles toFixed_js constructor (ticks 100 1000 16 ++ ticks 17 2600 8).

(** Timestamps that never decrease: 91 frames at 2^51 ms and three at
    2^51 + 0.5 ms, where binary64 has steps of 0.5; the next frame is at
    2^51 + 0.5 again. *)
Definition stalled94 : RefreshRateCalculator :=
  cycles toFixed_js constructor
    (ticks 91 2251799813685248 0 ++ ticks 3 2251799813685248.5 0).

(** 64 frames 32 ms apart (31.25 Hz), from 200 on; the next is at 2248. *)
Definition slow64 : RefreshRateCalculator :=
  cycles toFixed_js constructor (ticks 64 200 32).

(** An instance tuned to store 4 samples and to skip nothing at startup,
    after 8 frames at 62.5 Hz: its store is full. *)
Definition small_full : RefreshRateCalculator :=
  cycles toFixed_js
    (__reset
       {| _VALIDATEMS := 100; _TIGHTGROUPMS := 1; _MSCHANGE := 1;
          _MAXSTORE := 4%Z; _LOWESTVALIDHZ := 35%Z; _nJavaScriptSkip := 0%Z;
          _cycleCount := 0%Z; _nSkipBase := 0%Z; _nSkip := 0%Z; _tUpdate := 0;
          _L0 := 0; _L1 := 0; _L2 := 0; _L3 := 0; _L4 := 0;
          _m_D := []; _m_S := []; _m_ms := 0; _m_vi := ""%string; _m_tvsync := 0;
          _m_summs := 0; _m_nms := 0%Z; _m_nChange := 0%Z |})
    (ticks 8 1000 16).

(** ** The theorems at work on these runs *)


(** C3 on the 21st deviating admission in a row: 125 Hz halved to 62.5 Hz. *)
Lemma hz_change_witness :
  tight halved124 2184 = true
  /\ (_nJavaScriptSkip halved124 - 1 < 0)%Z
  /\ (_nSkip halved124 - 1 < 0)%Z
  /\ above_floor halved124 2184 = true
  /\ _m_nChange halved124 = 20%Z
  /\ _m_nChange (tracked halved124 2184) = (_m_nChange halved124 + 1)%Z
  /\ path toFixed_js halved124 2184 = HzReset
  /\ countCycle toFixed_js halved124 2184 = __reset (tracked halved124 2184)
  /\ cleared (countCycle toFixed_js halved124 2184)
  /\ getCount (countCycle toFixed_js halved124 2184) = 0%Z.
Proof.
  assert (H1 : tight halved124 2184 = true) by (vm_compute; reflexivity).
  assert (H2 : (_nJavaScriptSkip halved124 - 1 < 0)%Z) by (vm_compute; reflexivity).
  assert (H3 : (_nSkip halved124 - 1 < 0)%Z) by (vm_compute; reflexivity).
  assert (H4 : above_floor halved124 2184 = true) by (vm_compute; reflexivity).
  assert (H5 : _m_nChange halved124 = 20%Z) by (vm_compute; reflexivity).
  assert (H6 : ((11 <=? _m_nms halved124)%Z
                && (_MSCHANGE halved124
                    <? abs (avems (shift halved124 2184)
                            - _m_summs halved124 / JS.ofZ (_m_nms halved124)))) = true)
    by (vm_compute; reflexivity).
  destruct (hz_change_counter toFixed_js halved124 2184 H1 H2 H3 H4)
    as (D & _ & I & R & _).
  destruct (D H6) as (E & _).
  assert (H7 : (20 < _m_nChange (tracked halved124 2184))%Z).
  { apply I. split; [exact H6|]. rewrite H5. discriminate. }
  destruct (R H7) as (P & Q & C & N & _).
  exact (conj H1 (conj H2 (conj H3 (conj H4 (conj H5 (conj E (conj P (conj Q
           (conj C N))))))))).
Defined.

(** C4 on an instance tuned to 4 samples: the store is full when the frame
    at 1128 arrives; one tight group is then absorbed, and the next gets
    past the gate. *)
Lemma store_downsampling_witness :
  tight small_full 1128 = true
  /\ (_nJavaScriptSkip small_full - 1 < 0)%Z
  /\ (_nSkip small_full - 1 < 0)%Z
  /\ above_floor small_full 1128 = true
  /\ (_m_nChange (tracked small_full 1128) <= 20)%Z
  /\ length (_m_D small_full) = length (_m_S small_full)
  /\ (_MAXSTORE small_full <= Z.of_nat (length (_m_D small_full)))%Z
  /\ _m_D (store (tracked small_full 1128)) = __cut (_m_D small_full) ++ [_L3 small_full]
  /\ _nSkipBase (store (tracked small_full 1128)) = (_nSkipBase small_full * 2 + 1)%Z
  /\ reachable toFixed_js steady64
  /\ (exists n : nat, _nSkipBase steady64 = (2 ^ Z.of_nat n - 1)%Z)
  /\ (_nJavaScriptSkip (countCycle toFixed_js small_full 1128) <= 0)%Z
  /\ Z.le (tight_calls toFixed_js (countCycle toFixed_js small_full 1128) [1144])
          (_nSkip (countCycle toFixed_js small_full 1128))
  /\ _m_D (cycles toFixed_js (countCycle toFixed_js small_full 1128) [1144])
     = _m_D (countCycle toFixed_js small_full 1128).
Proof.
  assert (H1 : tight small_full 1128 = true) by (vm_compute; reflexivity).
  assert (H2 : (_nJavaScriptSkip small_full - 1 < 0)%Z) by (vm_compute; reflexivity).
  assert (H3 : (_nSkip small_full - 1 < 0)%Z) by (vm_compute; reflexivity).
  assert (H4 : above_floor small_full 1128 = true) by (vm_compute; reflexivity).
  assert (H5 : (_m_nChange (tracked small_full 1128) <= 20)%Z)
    by (vm_compute; discriminate).
  assert (H6 : length (_m_D small_full) = length (_m_S small_full))
    by (vm_compute; reflexivity).
  assert (H7 : (_MAXSTORE small_full <= Z.of_nat (length (_m_D small_full)))%Z)
    by (vm_compute; discriminate).
  assert (H8 : reachable toFixed_js steady64).
  { exists (map CountCycle (ticks 64 1000 16)). vm_compute. reflexivity. }
  assert (H9 : (_nJavaScriptSkip (countCycle toFixed_js small_full 1128) <= 0)%Z)
    by (vm_compute; discriminate).
  assert (H10 : Z.le (tight_calls toFixed_js (countCycle toFixed_js small_full 1128) [1144])
                     (_nSkip (countCycle toFixed_js small_full 1128)))
    by (vm_compute; discriminate).
  destruct (store_downsampling toFixed_js small_full 1128 [] [] 0)
    as (_ & F & _ & _ & _).
  destruct (F H1 H2 H3 H4 H5 H6 H7) as (_ & D & _ & B & _).
  destruct (store_downsampling toFixed_js steady64 0 [] [] 0) as (_ & _ & _ & R & _).
  destruct (store_downsampling toFixed_js (countCycle toFixed_js small_full 1128)
              1160 [1144] [] 0) as (_ & _ & _ & _ & A).
  exact (conj H1 (conj H2 (conj H3 (conj H4 (conj H5 (conj H6 (conj H7 (conj D (conj B
           (conj H8 (conj (R H8) (conj H9 (conj H10 (proj1 (A H9 H10))))))))))))))).
Defined.

(** C5 on a 31.25 Hz source: the 65th frame passes the gates and is dropped
    by the floor, and 70 such frames from the start store nothing. *)
Lemma low_rate_witness :
  tight slow64 2248 = true
  /\ (_nJavaScriptSkip slow64 - 1 < 0)%Z
  /\ (_nSkip slow64 - 1 < 0)%Z
  /\ (floor_ms slow64 <=? avems (shift slow64 2248)) = true
  /\ path toFixed_js slow64 2248 = Inactive
  /\ same_statistics slow64 (countCycle toFixed_js slow64 2248)
  /\ always_slow toFixed_js constructor (ticks 70 200 32)
  /\ _m_D (cycles toFixed_js constructor (ticks 70 200 32)) = []
  /\ getCurrentFrequency (cycles toFixed_js constructor (ticks 70 200 32)) = 0.
Proof.
  assert (H1 : tight slow64 2248 = true) by (vm_compute; reflexivity).
  assert (H2 : (_nJavaScriptSkip slow64 - 1 < 0)%Z) by (vm_compute; reflexivity).
  assert (H3 : (_nSkip slow64 - 1 < 0)%Z) by (vm_compute; reflexivity).
  assert (H4 : (floor_ms slow64 <=? avems (shift slow64 2248)) = true)
    by (vm_compute; reflexivity).
  assert (H5 : always_slow toFixed_js constructor (ticks 70 200 32))
    by (vm_compute; repeat split).
  destruct (low_rate_dropped toFixed_js slow64 2248 []) as (_ & _ & S & _).
  destruct (S H1 H2 H3 H4) as (P & _ & K & _).
  destruct (low_rate_dropped toFixed_js constructor 0 (ticks 70 200 32)) as (_ & _ & _ & R).
  exact (conj H1 (conj H2 (conj H3 (conj H4 (conj P (conj K (conj H5
           (R eq_refl eq_refl H5)))))))).
Defined.

(** C9 on a reachable state and a further call. *)
Lemma store_lengths_witness :
  reachable toFixed_js steady94
  /\ length (_m_D steady94) = length (_m_S steady94)
  /\ (Z.of_nat (length (_m_D (call toFixed_js steady94 (CountCycle 2504)))) <= 5000000)%Z.
Proof.
  assert (H : reachable toFixed_js steady94).
  { exists (map CountCycle (ticks 94 1000 16)). vm_compute. reflexivity. }
  split; [exact H|].
  destruct (store_lengths_invariant toFixed_js steady94 (CountCycle 2504) H)
    as (_ & E & _ & _ & B).
  split; [exact E | exact B].
Defined.

(** The validator on the steady run: the 95th frame runs it, and it accepts
    a slope of 16 ms. *)
Lemma validator_witness :
  path toFixed_js steady94 2504 = Validated
  /\ _m_ms (countCycle toFixed_js steady94 2504) = fit_slope (validating steady94 2504)
  /\ _m_tvsync (countCycle toFixed_js steady94 2504)
     = fit_timebase (validating steady94 2504) + fit_min (validating steady94 2504).
Proof.
  assert (H : path toFixed_js steady94 2504 = Validated) by (vm_compute; reflexivity).
  split; [exact H|].
  destruct (validator_fit_and_drift_check toFixed_js steady94 2504) as (_ & _ & _ & V & _).
  destruct (V H) as (_ & M & T & _). split; [exact M | exact T].
Defined.

(** C7 on a call that ends in an internal reset. *)
Lemma internal_reset_witness :
  resets toFixed_js doubled117 (CountCycle 2736) = true
  /\ countCycle toFixed_js doubled117 2736
     = restartMeasuring (countCycle toFixed_js doubled117 2736)
  /\ _nJavaScriptSkip (countCycle toFixed_js doubled117 2736)
     = (_nJavaScriptSkip doubled117 - 1)%Z.
Proof.
  assert (H : resets toFixed_js doubled117 (CountCycle 2736) = true)
    by (vm_compute; reflexivity).
  split; [exact H|].
  pose proof (reset_clears_statistics toFixed_js doubled117 2736) as R. cbv zeta in R.
  apply R. exact H.
Defined.

(** C10 on the stalled run: the validator of the 95th frame meets a zero
    denominator, and the call ends in the cleared state. *)
Lemma zero_denominator_witness :
  (fit_denominator (validating stalled94 2251799813685248.5) =? 0) = true
  /\ path toFixed_js stalled94 2251799813685248.5 = DriftReset
  /\ __validate toFixed_js (validating stalled94 2251799813685248.5)
     = (EmptyString,
        __reset (set_m_ms (fit_slope (validating stalled94 2251799813685248.5))
                   (validating stalled94 2251799813685248.5)))
  /\ cleared (countCycle toFixed_js stalled94 2251799813685248.5)
  /\ getCount (countCycle toFixed_js stalled94 2251799813685248.5) = 0%Z.
Proof.
  assert (H : (fit_denominator (validating stalled94 2251799813685248.5) =? 0) = true)
    by (vm_compute; reflexivity).
  assert (P : path toFixed_js stalled94 2251799813685248.5 = DriftReset)
    by (vm_compute; reflexivity).
  destruct (zero_denominator_resets toFixed_js
              (validating stalled94 2251799813685248.5) 0) as (_ & Z & _).
  destruct (Z H) as (_ & V & _).
  destruct (zero_denominator_resets toFixed_js stalled94 2251799813685248.5)
    as (_ & _ & A).
  destruct (A H) as (_ & D). destruct (D P) as (C & N & _).
  exact (conj H (conj P (conj V (conj C N)))).
Defined.

(** ** Where the claims as worded fail *)

(** Against C7: after 70 frames the startup skip counter stands at -6, and
    [restartMeasuring] leaves it there: the first tight group after the
    restart is stored, where a new instance skips it. *)
Lemma startup_skip_not_restored :
  _nJavaScriptSkip constructor = 60%Z
  /\ _nJavaScriptSkip (restartMeasuring steady70) = (-6)%Z
  /\ path toFixed_js
       (cycles toFixed_js (restartMeasuring steady70) (ticks 4 2120 16)) 2184 = Stored
  /\ path toFixed_js (cycles toFixed_js constructor (ticks 4 2120 16)) 2184 = Skipped.
Proof. vm_compute. repeat split. Qed.

(** Against C10: on the stalled run, whose timestamps never decrease, the
    interval is primed by the running mean of 31 admissions, the 95th frame
    runs the validator, and every cycle index is 0, as the smoothed samples
    are all equal: the denominator is 0 and the slope is NaN. *)
Lemma validator_meets_zero_denominator :
  JS.truthy (_m_ms (validating stalled94 2251799813685248.5)) = true
  /\ _m_nms (validating stalled94 2251799813685248.5) = 31%Z
  /\ due (store (tracked stalled94 2251799813685248.5)) 2251799813685248.5 = true
  /\ path toFixed_js stalled94 2251799813685248.5 = DriftReset
  /\ (fit_denominator (validating stalled94 2251799813685248.5) =? 0) = true
  /\ is_nan (fit_slope (validating stalled94 2251799813685248.5)) = true.
Proof. vm_compute. repeat split. Qed.

(** ** Where the code goes against its own comments *)

(** C1: the validator run on the two-rate timestamps, which never decrease.
    The 95th frame runs the validator on 31 samples; the fitted interval is
    0.8125 ms, half of it 0.40625 ms.  Stored sample 1 lies before the
    candidate timebase, so the dividend of the remainder on line 264 is
    negative, the remainder keeps that sign, and the residual comes out below
    [-halfMs] (below -1.125), outside the range [-halfMs, halfMs) that the
    comment on that line and the claim give; it is the minimum that the
    second loop holds after its first round. *)
Lemma validator_residual_below_range :
  path toFixed_js two_rate94 1095.125 = DriftReset
  /\ fst (__validate toFixed_js (validating two_rate94 1095.125)) = EmptyString
  /\ length (_m_D (validating two_rate94 1095.125)) = 31%nat
  /\ (snd (drift_body
             (set_m_ms (fit_slope (validating two_rate94 1095.125))
                (validating two_rate94 1095.125))
             (fit_timebase (validating two_rate94 1095.125))
             (fit_halfMs (validating two_rate94 1095.125)) 1 (0, 0))
      <? - fit_halfMs (validating two_rate94 1095.125)) = true
  /\ fit_slope (validating two_rate94 1095.125) = 0.8125
  /\ fit_halfMs (validating two_rate94 1095.125) = 0.40625
  /\ (JS.get (_m_D (validating two_rate94 1095.125)) 1
      - fit_timebase (validating two_rate94 1095.125)
      + fit_halfMs (validating two_rate94 1095.125) <? 0) = true
  /\ (fit_offset (validating two_rate94 1095.125) 1
      <? - fit_halfMs (validating two_rate94 1095.125)) = true
  /\ (fit_offset (validating two_rate94 1095.125) 1 <? -1.125) = true.
Proof. vm_compute. repeat split. Qed.

(** C8: 117 [countCycle] calls on a new instance and no [restartMeasuring];
    [getCount] returns 117, and after the 118th call, whose validator resets
    on excessive drift, it returns 0: the count has gone down, and it is not
    the number of cycles counted since the instance was made, which is what
    the comment above [getCount] and the claim say it is. *)
Lemma count_drops_without_restart :
  getCount doubled117 = 117%Z
  /\ path toFixed_js doubled117 2736 = DriftReset
  /\ getCount (countCycle toFixed_js doubled117 2736) = 0%Z.
Proof. vm_compute. repeat split. Qed.

(** ** Further runs *)

(** 95 frames at 62.5 Hz: the last one, at 2504, primed the interval and ran
    the validator, which accepted the fit. *)
Definition primed95 : RefreshRateCalculator := countCycle toFixed_js steady94 2504.

(** The count 2. *)
Definition two_cycles : Count := {| count_value := 2; count_safe := eq_refl |}.

(** [steady64] told to ignore two cycles, and then the frames at 2024 and
    2040. *)
Definition ignoring66 : RefreshRateCalculator :=
  cycles toFixed_js (ignoreNextCycle steady64 (Some two_cycles)) [2024; 2040].

Lemma run_cycles (toFixed : float -> Z -> string) (ts : list float) :
  forall this, run toFixed this (map CountCycle ts) = cycles toFixed this ts.
Proof. induction ts as [|t ts IH]; intros this; [reflexivity | apply IH]. Qed.

Lemma reachable_cycles (ts : list float) :
  reachable toFixed_js (cycles toFixed_js constructor ts).
Proof. exists (map CountCycle ts). symmetry. apply run_cycles. Qed.

Lemma reachable_primed95 : reachable toFixed_js primed95.
Proof.
  destruct (reachable_cycles (ticks 94 1000 16)) as [cs E].
  exists (cs ++ [CountCycle 2504]). unfold run. rewrite fold_left_app.
  fold (run toFixed_js constructor cs). rewrite <- E. reflexivity.
Qed.

(** X1 on the first 64 frames of a new instance at 62.5 Hz, which hold 60
    tight groups. *)
Lemma startup_skip_witness :
  (tight_calls toFixed_js constructor (ticks 64 1000 16) <= _nJavaScriptSkip constructor)%Z
  /\ same_statistics constructor steady64
  /\ _nSkip steady64 = 0%Z
  /\ _nJavaScriptSkip steady64
     = (60 - tight_calls toFixed_js constructor (ticks 64 1000 16))%Z
  /\ getCurrentFrequency steady64 = 0
  /\ getFilteredCycleTimestamp steady64 = None.
Proof.
  assert (H : (tight_calls toFixed_js constructor (ticks 64 1000 16)
               <= _nJavaScriptSkip constructor)%Z) by (vm_compute; discriminate).
  exact (conj H (startup_skip_absorbs toFixed_js constructor (ticks 64 1000 16) H)).
Defined.

(** X3 after the startup skip: told to ignore two cycles, the estimator
    absorbs the frames at 2024 and 2040 and stores the one at 2056, and the
    Number 2 is below 0 after the third decrement; and on a new instance the
    default count of 1 outlasts ten frames. *)
Lemma ignore_next_cycle_witness :
  (_nJavaScriptSkip steady64 <= 0)%Z
  /\ tight_calls toFixed_js (ignoreNextCycle steady64 (Some two_cycles)) [2024; 2040] = 2%Z
  /\ tight ignoring66 2056 = true
  /\ _m_D ignoring66 = _m_D steady64
  /\ _nSkip ignoring66 = 0%Z
  /\ path toFixed_js ignoring66 2056 <> Loose
  /\ path toFixed_js ignoring66 2056 <> Skipped
  /\ 2 - 1 - 1 - 1 = JS.ofZ (-1)
  /\ (tight_calls toFixed_js (ignoreNextCycle constructor None) (ticks 10 1000 16)
      <= _nJavaScriptSkip constructor)%Z
  /\ _nSkip (cycles toFixed_js (ignoreNextCycle constructor None) (ticks 10 1000 16)) = 1%Z.
Proof.
  assert (H1 : (_nJavaScriptSkip steady64 <= 0)%Z) by (vm_compute; discriminate).
  assert (H2 : tight_calls toFixed_js (ignoreNextCycle steady64 (Some two_cycles))
                 [2024; 2040] = 2%Z)
    by (vm_compute; reflexivity).
  assert (H3 : tight ignoring66 2056 = true) by (vm_compute; reflexivity).
  assert (H4 : (tight_calls toFixed_js (ignoreNextCycle constructor None) (ticks 10 1000 16)
                <= _nJavaScriptSkip constructor)%Z) by (vm_compute; discriminate).
  destruct (ignore_next_cycle_absorbs toFixed_js steady64 (Some two_cycles)
              [2024; 2040] 2056)
    as (_ & _ & _ & _ & C & A & _).
  destruct (A H1 ltac:(rewrite H2; apply Z.le_refl)) as (D & _ & K & O).
  destruct (O H2 H3) as (O1 & O2).
  destruct (C 3%nat ltac:(discriminate)) as (C3 & _).
  destruct (ignore_next_cycle_absorbs toFixed_js constructor None (ticks 10 1000 16) 0)
    as (_ & _ & _ & _ & _ & _ & B).
  rewrite H2 in K.
  exact (conj H1 (conj H2 (conj H3 (conj D (conj K (conj O1 (conj O2
           (conj C3 (conj H4 (B H4)))))))))).
Defined.

(** X4 on the frame at 2120 after 70 frames at 62.5 Hz: one sample is
    appended to each sequence. *)
Lemma store_effect_witness :
  length (_m_D steady70) = length (_m_S steady70)
  /\ path toFixed_js steady70 2120 = Stored
  /\ _m_D (countCycle toFixed_js steady70 2120) = _m_D steady70 ++ [_L3 steady70]
  /\ _m_S (countCycle toFixed_js steady70 2120)
     = _m_S steady70
       ++ [(_L1 steady70 + _L2 steady70 + _L3 steady70 + _L4 steady70 + 2120) / 5].
Proof.
  assert (H : length (_m_D steady70) = length (_m_S steady70)) by (vm_compute; reflexivity).
  assert (P : path toFixed_js steady70 2120 = Stored) by (vm_compute; reflexivity).
  assert (F : (_MAXSTORE steady70 <=? Z.of_nat (length (_m_D steady70)))%Z = false)
    by (vm_compute; reflexivity).
  destruct (count_cycle_store_effect toFixed_js steady70 2120 H) as (E & _).
  rewrite P, F in E.
  exact (conj H (conj P E)).
Defined.

(** X5 after 70 frames at 62.5 Hz: the restarted instance has a startup
    counter of -6. *)
Lemma restart_witness :
  reachable toFixed_js steady70
  /\ restartMeasuring steady70 = set_nJavaScriptSkip (_nJavaScriptSkip steady70) constructor
  /\ (_nJavaScriptSkip steady70 <= 60)%Z.
Proof.
  exact (conj (reachable_cycles (ticks 70 1000 16))
           (restart_is_new_but_for_startup toFixed_js steady70
              (reachable_cycles (ticks 70 1000 16)))).
Defined.

(** X7 after 95 frames at 62.5 Hz: the snapshot has the interval 16, and the
    frequency is 1000 / 16. *)
Lemma snapshot_witness :
  reachable toFixed_js primed95
  /\ getFilteredCycleTimestamp primed95 = Some {| tvsync := 1992; ms := 16 |}
  /\ (0 <? 16) = true
  /\ 16 = _m_ms primed95 /\ 1992 = _m_tvsync primed95
  /\ getCurrentFrequency primed95 = 1000 / 16
  /\ (31 <= _m_nms primed95)%Z.
Proof.
  assert (S : getFilteredCycleTimestamp primed95 = Some {| tvsync := 1992; ms := 16 |})
    by (vm_compute; reflexivity).
  exact (conj reachable_primed95
           (conj S (snapshot_has_positive_interval toFixed_js primed95
                      {| tvsync := 1992; ms := 16 |}
                      reachable_primed95 S))).
Defined.

(** X8 after 70 frames at 62.5 Hz, with 6 samples in the running mean. *)
Lemma unprimed_witness :
  reachable toFixed_js steady70
  /\ (_m_nms steady70 <= 30)%Z
  /\ getCurrentFrequency steady70 = 0
  /\ getFilteredCycleTimestamp steady70 = None.
Proof.
  assert (H : (_m_nms steady70 <= 30)%Z) by (vm_compute; discriminate).
  exact (conj (reachable_cycles (ticks 70 1000 16))
           (conj H (unprimed_below_31_samples toFixed_js steady70
                      (reachable_cycles (ticks 70 1000 16)) H))).
Defined.

(** X9 after 100 frames at 125 Hz and 24 frames at 62.5 Hz, where the change
    counter stands at 20. *)
Lemma counters_witness :
  reachable toFixed_js halved124
  /\ (0 <= _m_nChange halved124 <= 20)%Z
  /\ (0 <= _m_nms halved124)%Z
  /\ (0 <= getCount halved124)%Z.
Proof.
  exact (conj (reachable_cycles (ticks 100 1000 8 ++ ticks 24 1800 16))
           (counters_stay_in_range toFixed_js halved124
              (reachable_cycles (ticks 100 1000 8 ++ ticks 24 1800 16)))).
Defined.

(** X10 on the 95th and 96th frame at 62.5 Hz: the frame at 2504 runs the
    validator, the frame at 2520, 16 ms later, does not. *)
Lemma validator_period_witness :
  path toFixed_js steady94 2504 = Validated
  /\ (_VALIDATEMS steady94 <? 2520 - 2504) = false
  /\ _tUpdate primed95 = 2504
  /\ path toFixed_js primed95 2520 <> Validated
  /\ path toFixed_js primed95 2520 <> DriftReset.
Proof.
  assert (P : path toFixed_js steady94 2504 = Validated) by (vm_compute; reflexivity).
  assert (H : (_VALIDATEMS steady94 <? 2520 - 2504) = false) by (vm_compute; reflexivity).
  destruct (validator_keeps_its_period toFixed_js steady94 2504 2520) as (_ & A).
  destruct (A P) as (U & N).
  exact (conj P (conj H (conj U (N H)))).
Defined.

(** X11 after 95 frames at 62.5 Hz: the time 2510 is 6 ms past the vsync
    at 2504. *)
Lemma vso_witness :
  reachable toFixed_js primed95
  /\ __vso 2510 (getFilteredCycleTimestamp primed95) = 6.
Proof.
  split; [exact reachable_primed95|].
  destruct (vso_of_reachable_snapshot toFixed_js primed95 2510
              reachable_primed95) as (_ & E).
  rewrite E. vm_compute. reflexivity.
Defined.
